(** * Technical indicators of the stock dashboard ([stock_dashboard.py])

    The dashboard downloads an OHLCV frame, shows a row of metrics and then
    adds indicator columns to the frame with pandas primitives
    ([rolling(..).mean()], [rolling(..).std()], [ewm(..).mean()], [diff],
    [where] and element-wise arithmetic).

    Numbers.  A float64 cell is modelled by [float]: a real number, one of
    the two infinities, or NaN.  The special values follow IEEE-754 (what
    numpy does under pandas, which silences the division warnings); finite
    arithmetic is exact, so rounding is abstracted away, and the two signed
    zeros are identified (a zero divisor counts as +0).  Which of the two
    infinities a division by zero yields therefore depends on a sign the
    model does not keep: the statements below only say [infinite]. *)

From Stdlib Require Import Reals Lra.
From stdpp Require Import gmap strings list fin_maps.

Open Scope R_scope.

(** ** Float cells *)

Inductive float : Type :=
  | Num (x : R)
  | PInf
  | NInf
  | NaN.

#[global] Instance Rlt_decision : RelDecision Rlt := Rlt_dec.
#[global] Instance Rle_decision : RelDecision Rle := Rle_dec.
#[global] Instance R_eq_decision : EqDecision R := Req_dec_T.

(** [x * inf] and [x / 0]: the sign of [x] picks the infinity, zero gives NaN. *)
Definition sign_inf (x : R) : float :=
  if decide (0 < x) then PInf else if decide (x < 0) then NInf else NaN.

Definition fopp (a : float) : float :=
  match a with
  | Num x => Num (- x)
  | PInf => NInf
  | NInf => PInf
  | NaN => NaN
  end.

Definition fadd (a b : float) : float :=
  match a, b with
  | NaN, _ | _, NaN => NaN
  | Num x, Num y => Num (x + y)
  | PInf, NInf | NInf, PInf => NaN
  | PInf, _ | _, PInf => PInf
  | NInf, _ | _, NInf => NInf
  end.

Definition fsub (a b : float) : float := fadd a (fopp b).

Definition fmul (a b : float) : float :=
  match a, b with
  | NaN, _ | _, NaN => NaN
  | Num x, Num y => Num (x * y)
  | Num x, PInf | PInf, Num x => sign_inf x
  | Num x, NInf | NInf, Num x => sign_inf (- x)
  | PInf, PInf | NInf, NInf => PInf
  | PInf, NInf | NInf, PInf => NInf
  end.

Definition fdiv (a b : float) : float :=
  match a, b with
  | NaN, _ | _, NaN => NaN
  | Num x, Num y => if decide (y = 0) then sign_inf x else Num (x / y)
  | Num _, PInf | Num _, NInf => Num 0
  | PInf, Num y => if decide (y < 0) then NInf else PInf
  | NInf, Num y => if decide (y < 0) then PInf else NInf
  | _, _ => NaN
  end.

(** [a > b] and [a < b]; every comparison with NaN is false. *)
Definition fgtb (a b : float) : bool :=
  match a, b with
  | Num x, Num y => bool_decide (y < x)
  | PInf, Num _ | PInf, NInf | Num _, NInf => true
  | _, _ => false
  end.

Definition fltb (a b : float) : bool := fgtb b a.

(** [a <= b] as a proposition (false as soon as one side is NaN). *)
Definition fle (a b : float) : Prop :=
  match a, b with
  | Num x, Num y => x <= y
  | NInf, Num _ | NInf, PInf | NInf, NInf | Num _, PInf | PInf, PInf => True
  | _, _ => False
  end.

Definition infinite (a : float) : Prop := a = PInf ∨ a = NInf.

(** ** Series: one column of a frame *)

Abbreviation Series := (list float).

(** [s.diff()]: the first cell has no predecessor and is NaN. *)
Definition diff (s : Series) : Series :=
  match s with
  | [] => []
  | _ :: rest => NaN :: zip_with fsub rest s
  end.

(** [s > c] and [s < c] against a scalar. *)
Definition series_gt (s : Series) (c : float) : list bool :=
  (λ x, fgtb x c) <$> s.

Definition series_lt (s : Series) (c : float) : list bool :=
  (λ x, fltb x c) <$> s.

(** [s.where(cond, other)]: keep the cell where [cond] holds, else [other]. *)
Definition where_ (s : Series) (cond : list bool) (other : float) : Series :=
  zip_with (λ x (c : bool), if c then x else other) s cond.

(** [-s], [a + b], [a - b], [a / b] cell by cell, and a scalar on the left. *)
Definition series_neg (s : Series) : Series := fopp <$> s.
Definition series_add (a b : Series) : Series := zip_with fadd a b.
Definition series_sub (a b : Series) : Series := zip_with fsub a b.
Definition series_div (a b : Series) : Series := zip_with fdiv a b.
Definition scalar_mul (c : float) (s : Series) : Series := fmul c <$> s.
Definition scalar_add (c : float) (s : Series) : Series := fadd c <$> s.
Definition scalar_sub (c : float) (s : Series) : Series := fsub c <$> s.
Definition scalar_div (c : float) (s : Series) : Series := fdiv c <$> s.

(** ** Window functions

    Both [rolling] and [ewm] first pass the column through pandas'
    [_prep_values], which turns the infinities into NaN: an observation is
    a finite cell. *)

Definition observation (a : float) : option R :=
  match a with Num x => Some x | _ => None end.

Definition prep_values (s : Series) : list (option R) := observation <$> s.

Definition of_option (o : option R) : float :=
  match o with Some x => Num x | None => NaN end.

Definition Rsum (l : list R) : R := foldr Rplus 0 l.

(** The observations among the cells of a window. *)
Definition observations (buf : list (option R)) : list R :=
  omap (λ o : option R, o) buf.

(** The last [k] cells of a list (all of it when it is shorter). *)
Definition lastn {A : Type} (k : nat) (l : list A) : list A :=
  drop (length l - k) l.

(** The cells of the current window: the last [window] cells seen. *)
Definition push_window (window : nat) (buf : list (option R)) (x : option R)
  : list (option R) :=
  lastn window (buf ++ [x]).

(** [rolling(window)] with the default [min_periods = window]: the result
    is NaN unless the window holds [window] observations. *)
Definition window_result (window : nat) (agg : list R → float)
    (buf : list (option R)) : float :=
  let obs := observations buf in
  if decide (length obs < window)%nat then NaN else agg obs.

Fixpoint rolling_from (window : nat) (agg : list R → float)
    (buf : list (option R)) (vals : list (option R)) : Series :=
  match vals with
  | [] => []
  | x :: vals' =>
      let buf' := push_window window buf x in
      window_result window agg buf' :: rolling_from window agg buf' vals'
  end.

Definition rolling (window : nat) (agg : list R → float) (s : Series) : Series :=
  rolling_from window agg [] (prep_values s).

(** [.mean()]: NaN on no observation. *)
Definition agg_mean (obs : list R) : float :=
  if decide (length obs = 0%nat) then NaN
  else Num (Rsum obs / INR (length obs)).

(** [.std()] with the default [ddof = 1]: the square root of the sum of
    squared deviations from the mean over [nobs - 1], NaN unless
    [nobs > ddof]. *)
Definition ssqdm (obs : list R) : R :=
  let m := Rsum obs / INR (length obs) in
  Rsum ((λ x, (x - m) * (x - m)) <$> obs).

Definition agg_var (obs : list R) : float :=
  if decide (length obs ≤ 1)%nat then NaN
  else Num (ssqdm obs / (INR (length obs) - 1)).

Definition fsqrt (a : float) : float :=
  match a with
  | Num x => Num (sqrt x)
  | PInf => PInf
  | _ => NaN
  end.

Definition agg_std (obs : list R) : float := fsqrt (agg_var obs).

Definition rolling_mean (window : nat) (s : Series) : Series :=
  rolling window agg_mean s.

Definition rolling_std (window : nat) (s : Series) : Series :=
  rolling window agg_std s.

(** ** Exceptions *)

Inductive error : Type :=
  | KeyError (name : string)
  | IndexError
  | ValueError.

Inductive result (A : Type) : Type :=
  | Ok (a : A)
  | Raise (e : error).
Arguments Ok {A} a.
Arguments Raise {A} e.

#[global] Instance result_ret : MRet result := λ A a, Ok a.
#[global] Instance result_bind : MBind result := λ A B f r,
  match r with
  | Ok a => f a
  | Raise e => Raise e
  end.

(** ** Exponentially weighted mean: [s.ewm(span=span, adjust=False).mean()]

    pandas keeps the running value [weighted] and the weight [old_wt] of
    the past.  A missing cell leaves [weighted] as it is and lets [old_wt]
    decay; an observation is blended in with weight [alpha] and the sum of
    weights normalised (a cell equal to [weighted] is skipped, to keep
    constant series exact).  The state starts at the first cell with
    [old_wt = 1]; every output cell is the current [weighted].  pandas
    accepts [span >= 1] only, so [0 < alpha <= 1] and the normaliser is
    positive. *)

Definition ewm_alpha (span : R) : R := 2 / (span + 1).

Definition ewm_step (alpha : R) (st : option R * R) (cur : option R)
  : option R * R :=
  match st.1 with
  | Some w =>
      let old_wt := st.2 * (1 - alpha) in
      match cur with
      | Some c =>
          (Some (if decide (w = c) then w
                 else (old_wt * w + alpha * c) / (old_wt + alpha)), 1)
      | None => (Some w, old_wt)
      end
  | None => (cur, st.2)
  end.

Fixpoint ewm_from (alpha : R) (st : option R * R) (vals : list (option R))
  : Series :=
  match vals with
  | [] => []
  | cur :: vals' =>
      let st' := ewm_step alpha st cur in
      of_option st'.1 :: ewm_from alpha st' vals'
  end.

Definition ewm_mean (span : R) (s : Series) : result Series :=
  if decide (span < 1) then Raise ValueError
  else Ok match prep_values s with
          | [] => []
          | v0 :: vals => of_option v0 :: ewm_from (ewm_alpha span) (v0, 1) vals
          end.

(** ** Frames *)

(** A frame: the row labels (timestamps) and the named columns. *)
Record DataFrame : Type := mkFrame {
  index : list Z;
  columns : gmap string (list float);
}.

(** [data.empty]: no row or no column. *)
Definition empty (data : DataFrame) : bool :=
  bool_decide (index data = []) || bool_decide (columns data = ∅).

(** [data[name]]. *)
Definition getitem (data : DataFrame) (name : string) : result Series :=
  match columns data !! name with
  | Some s => Ok s
  | None => Raise (KeyError name)
  end.

(** [data[name] = s], for a series [s] on the frame's own index. *)
Definition setitem (data : DataFrame) (name : string) (s : Series) : DataFrame :=
  mkFrame (index data) (<[name := s]> (columns data)).

(** [s.iloc[-k]] for [k >= 1]. *)
Definition iloc_back (s : Series) (k : nat) : result float :=
  if decide (k ≤ length s)%nat then
    match s !! (length s - k)%nat with
    | Some v => Ok v
    | None => Raise IndexError
    end
  else Raise IndexError.

(** ** The dashboard *)

(** Metrics row (lines 76-86). *)
Record metrics : Type := mkMetrics {
  last_close : float;
  prev_close : float;
  change : float;
  pct_change : float;
  volume : float;
  high : float;
  low : float;
}.

Definition metrics_row (data : DataFrame) : result metrics :=
  close ← getitem data "Close";
  last_close ← iloc_back close 1;
  close ← getitem data "Close";
  prev_close ← iloc_back close 2;
  let change := fsub last_close prev_close in
  let pct_change := fmul (fdiv change prev_close) (Num 100) in
  vol ← getitem data "Volume";
  volume ← iloc_back vol 1;
  hi ← getitem data "High";
  high ← iloc_back hi 1;
  lo ← getitem data "Low";
  low ← iloc_back lo 1;
  mret (mkMetrics last_close prev_close change pct_change volume high low).

(** The indicator blocks of lines 93-111, with the window lengths, spans
    and the band multiplier as arguments; [calculations] below passes the
    constants of the source. *)

(** [data[name] = data['Close'].rolling(window=window).mean()] *)
Definition add_sma (name : string) (window : nat) (data : DataFrame)
  : result DataFrame :=
  close ← getitem data "Close";
  mret (setitem data name (rolling_mean window close)).

(** [data['EMA_20'] = data['Close'].ewm(span=span, adjust=False).mean()] *)
Definition add_ema (name : string) (span : R) (data : DataFrame)
  : result DataFrame :=
  close ← getitem data "Close";
  ema ← ewm_mean span close;
  mret (setitem data name ema).

(** Lines 100-102. *)
Definition add_bollinger (window : nat) (num_std_dev : R) (data : DataFrame)
  : result DataFrame :=
  close ← getitem data "Close";
  let data := setitem data "BB_Middle" (rolling_mean window close) in
  middle ← getitem data "BB_Middle";
  close ← getitem data "Close";
  let data :=
    setitem data "BB_Upper"
      (series_add middle (scalar_mul (Num num_std_dev) (rolling_std window close))) in
  middle ← getitem data "BB_Middle";
  close ← getitem data "Close";
  mret (setitem data "BB_Lower"
      (series_sub middle (scalar_mul (Num num_std_dev) (rolling_std window close)))).

(** Lines 104-108, on the close column. *)
Definition rsi_delta (close : Series) : Series := diff close.

Definition rsi_gain (window : nat) (close : Series) : Series :=
  let delta := rsi_delta close in
  rolling_mean window (where_ delta (series_gt delta (Num 0)) (Num 0)).

Definition rsi_loss (window : nat) (close : Series) : Series :=
  let delta := rsi_delta close in
  rolling_mean window (series_neg (where_ delta (series_lt delta (Num 0)) (Num 0))).

Definition rsi_rs (window : nat) (close : Series) : Series :=
  series_div (rsi_gain window close) (rsi_loss window close).

Definition rsi (window : nat) (close : Series) : Series :=
  scalar_sub (Num 100) (scalar_div (Num 100) (scalar_add (Num 1) (rsi_rs window close))).

Definition add_rsi (window : nat) (data : DataFrame) : result DataFrame :=
  close ← getitem data "Close";
  mret (setitem data "RSI" (rsi window close)).

(** Lines 110-111. *)
Definition add_macd (fast slow signal : R) (data : DataFrame) : result DataFrame :=
  close ← getitem data "Close";
  ema_fast ← ewm_mean fast close;
  close ← getitem data "Close";
  ema_slow ← ewm_mean slow close;
  let data := setitem data "MACD_12_26" (series_sub ema_fast ema_slow) in
  macd ← getitem data "MACD_12_26";
  sig ← ewm_mean signal macd;
  mret (setitem data "MACD_Signal" sig).

(** ["name" in indicators] guards each block. *)
Definition when (name : string) (indicators : list string)
    (block : DataFrame → result DataFrame) (data : DataFrame) : result DataFrame :=
  if bool_decide (name ∈ indicators) then block data else mret data.

Definition calculations (indicators : list string) (data : DataFrame)
  : result DataFrame :=
  data ← when "SMA 20" indicators (add_sma "SMA_20" 20) data;
  data ← when "SMA 50" indicators (add_sma "SMA_50" 50) data;
  data ← when "EMA 20" indicators (add_ema "EMA_20" 20) data;
  data ← when "Bollinger Bands" indicators (add_bollinger 20 2) data;
  data ← when "RSI" indicators (add_rsi 14) data;
  when "MACD" indicators (add_macd 12 26 9) data.

(** The traces handed to plotly (lines 114-158): the candlesticks, then
    one line per selected overlay, then the RSI and MACD sub-charts. *)
Inductive trace : Type :=
  | Candlestick (x : list Z) (open high low close : Series)
  | Scatter (name : string) (x : list Z) (y : Series).

Definition scatter_when (name : string) (indicators : list string)
    (column : string) (label : string) (data : DataFrame) : result (list trace) :=
  if bool_decide (name ∈ indicators) then
    y ← getitem data column; mret [Scatter label (index data) y]
  else mret [].

Definition charts (indicators : list string) (data : DataFrame)
  : result (list trace) :=
  o ← getitem data "Open";
  h ← getitem data "High";
  l ← getitem data "Low";
  c ← getitem data "Close";
  sma20 ← scatter_when "SMA 20" indicators "SMA_20" "SMA 20" data;
  sma50 ← scatter_when "SMA 50" indicators "SMA_50" "SMA 50" data;
  ema20 ← scatter_when "EMA 20" indicators "EMA_20" "EMA 20" data;
  bbu ← scatter_when "Bollinger Bands" indicators "BB_Upper" "BB Upper" data;
  bbl ← scatter_when "Bollinger Bands" indicators "BB_Lower" "BB Lower" data;
  rsi ← scatter_when "RSI" indicators "RSI" "RSI" data;
  macd ← scatter_when "MACD" indicators "MACD_12_26" "MACD" data;
  sig ← scatter_when "MACD" indicators "MACD_Signal" "Signal" data;
  mret (Candlestick (index data) o h l c
          :: sma20 ++ sma50 ++ ema20 ++ bbu ++ bbl ++ rsi ++ macd ++ sig).

(** One run of the script on the downloaded frame ([None] when the
    download failed): the warning of line 176, an uncaught exception, or
    the metrics, the frame with its indicator columns and the traces.
    The company header, the raw-data table and the financials tab neither
    read an indicator nor write the frame, and are left out. *)
Inductive outcome : Type :=
  | NoData
  | Raised (e : error)
  | Rendered (m : metrics) (data : DataFrame) (fig : list trace).

Definition dashboard (data : option DataFrame) (indicators : list string)
  : outcome :=
  match data with
  | None => NoData
  | Some data =>
      if empty data then NoData
      else
        match metrics_row data with
        | Raise e => Raised e
        | Ok m =>
            match calculations indicators data with
            | Raise e => Raised e
            | Ok data' =>
                match charts indicators data' with
                | Raise e => Raised e
                | Ok fig => Rendered m data' fig
                end
            end
        end
  end.

(** ** The contracts in the words of the specification *)

(** [values[i-window+1 ..= i]] *)
Definition spec_window {A : Type} (values : list A) (window i : nat) : list A :=
  take window (drop (i + 1 - window) values).

Definition spec_mean (w : list R) : R := Rsum w / INR (length w).

(** Sample standard deviation ([ddof = 1]). *)
Definition spec_sample_std (w : list R) : R :=
  sqrt (Rsum ((λ x, (x - spec_mean w) ^ 2) <$> w) / (INR (length w) - 1)).

(** [value[0] = values[0]], [value[i] = α·values[i] + (1−α)·value[i−1]]. *)
Fixpoint spec_ewm (alpha : R) (values : list R) (i : nat) : R :=
  match i with
  | O => nth 0 values 0
  | S j => alpha * nth i values 0 + (1 - alpha) * spec_ewm alpha values j
  end.


(** The columns the download provides, and the ones the indicator blocks
    of [calculations] assign. *)
Definition price_columns : list string :=
  ["Open"; "High"; "Low"; "Close"; "Volume"].

Definition indicator_columns : list string :=
  ["SMA_20"; "SMA_50"; "EMA_20"; "BB_Middle"; "BB_Upper"; "BB_Lower";
   "RSI"; "MACD_12_26"; "MACD_Signal"].

(** Which columns each entry of the sidebar's multiselect produces. *)
Definition indicator_outputs : list (string * string) :=
  [("SMA 20", "SMA_20"); ("SMA 50", "SMA_50"); ("EMA 20", "EMA_20");
   ("Bollinger Bands", "BB_Middle"); ("Bollinger Bands", "BB_Upper");
   ("Bollinger Bands", "BB_Lower"); ("RSI", "RSI");
   ("MACD", "MACD_12_26"); ("MACD", "MACD_Signal")].

(** [data'] is [data] with indicator columns assigned: same rows, every
    other column untouched, no column lost. *)
Definition frame_le (data data' : DataFrame) : Prop :=
  index data' = index data ∧
  (∀ c, c ∉ indicator_columns → columns data' !! c = columns data !! c) ∧
  (∀ c, is_Some (columns data !! c) → is_Some (columns data' !! c)).

(** What an indicator block guarantees on a frame whose close column is
    [close]: it returns, its result extends the frame, and the columns
    [cols] are there. *)
Definition block_ok (close : Series) (block : DataFrame → result DataFrame)
    (cols : list string) : Prop :=
  ∀ data, getitem data "Close" = Ok close →
    ∃ data', block data = Ok data' ∧ frame_le data data' ∧
      Forall (λ c, is_Some (columns data' !! c)) cols.

(** [delta[i] = close[i] − close[i−1]] for [i >= 1]. *)
Definition spec_delta (close : list R) : list R :=
  zip_with Rminus (tail close) close.

(** The series whose rolling means are the two RSI averages on a finite
    close: [max(delta[i], 0)] and [max(−delta[i], 0)] for [i >= 1], and at
    position 0 the zero that [where] puts in place of the NaN of [diff]. *)
Definition raw_gains (close : list R) : list R :=
  match close with
  | [] => []
  | _ => 0 :: ((λ d, Rmax d 0) <$> spec_delta close)
  end.

Definition raw_losses (close : list R) : list R :=
  match close with
  | [] => []
  | _ => 0 :: ((λ d, Rmax (- d) 0) <$> spec_delta close)
  end.

Definition strictly_increasing (close : list R) : Prop :=
  ∀ i a b, close !! i = Some a → close !! S i = Some b → a < b.

(** The whole series of the recurrence, and the MACD line built from it. *)
Definition spec_ewm_series (alpha : R) (values : list R) : list R :=
  spec_ewm alpha values <$> seq 0 (length values).

Definition spec_macd_line (fast slow : R) (close : list R) : list R :=
  zip_with Rminus (spec_ewm_series (ewm_alpha fast) close)
                  (spec_ewm_series (ewm_alpha slow) close).

(** ** The calculations, column by column *)

(** The cells [ewm_mean] returns for a span it accepts. *)
Definition ewm_cells (span : R) (s : Series) : Series :=
  match prep_values s with
  | [] => []
  | v0 :: vals => of_option v0 :: ewm_from (ewm_alpha span) (v0, 1) vals
  end.

(** The entry of the multiselect that asks for an indicator column and
    what lines 93-111 assign to it, as a function of the close column
    alone. *)
Definition indicator_formula (close : Series) (col : string)
  : option (string * Series) :=
  let middle := rolling_mean 20 close in
  let band := scalar_mul (Num 2) (rolling_std 20 close) in
  let macd := series_sub (ewm_cells 12 close) (ewm_cells 26 close) in
  if bool_decide (col = "SMA_20") then Some ("SMA 20", rolling_mean 20 close)
  else if bool_decide (col = "SMA_50") then Some ("SMA 50", rolling_mean 50 close)
  else if bool_decide (col = "EMA_20") then Some ("EMA 20", ewm_cells 20 close)
  else if bool_decide (col = "BB_Middle") then Some ("Bollinger Bands", middle)
  else if bool_decide (col = "BB_Upper") then
    Some ("Bollinger Bands", series_add middle band)
  else if bool_decide (col = "BB_Lower") then
    Some ("Bollinger Bands", series_sub middle band)
  else if bool_decide (col = "RSI") then Some ("RSI", rsi 14 close)
  else if bool_decide (col = "MACD_12_26") then Some ("MACD", macd)
  else if bool_decide (col = "MACD_Signal") then Some ("MACD", ewm_cells 9 macd)
  else None.

(** The column [col] after the calculations on [data], whose close column
    is [close]. *)
Definition expected_column (indicators : list string) (data : DataFrame)
    (close : Series) (col : string) : option Series :=
  match indicator_formula close col with
  | Some (name, s) =>
      if bool_decide (name ∈ indicators) then Some s else columns data !! col
  | None => columns data !! col
  end.

(** The last of the values a block assigns to the column [c], if any. *)
Fixpoint assigned (writes : list (string * Series)) (c : string) : option Series :=
  match writes with
  | [] => None
  | (k, v) :: writes' =>
      match assigned writes' c with
      | Some v' => Some v'
      | None => if bool_decide (c = k) then Some v else None
      end
  end.

(** A block that, on a frame whose close column is [close], returns the
    frame with exactly the assignments [writes] made. *)
Definition block_writes (close : Series) (block : DataFrame → result DataFrame)
    (writes : list (string * Series)) : Prop :=
  ∀ data, getitem data "Close" = Ok close →
    ∃ data', block data = Ok data' ∧ index data' = index data ∧
      ∀ c, columns data' !! c
           = match assigned writes c with
             | Some v => Some v
             | None => columns data !! c
             end.

(** The six names the script looks for in the selection. *)
Definition indicator_names : list string :=
  ["SMA 20"; "SMA 50"; "EMA 20"; "Bollinger Bands"; "RSI"; "MACD"].

Definition strictly_decreasing (close : list R) : Prop :=
  ∀ i a b, close !! i = Some a → close !! S i = Some b → b < a.

(** ** Sample frames *)

(** The frame [yf.download] returns: the five price and volume columns. *)
Definition ohlcv (idx : list Z) (o h l c v : Series) : DataFrame :=
  mkFrame idx (<["Open" := o]> (<["High" := h]> (<["Low" := l]>
                (<["Close" := c]> (<["Volume" := v]> ∅))))).

(** A frame whose price columns all carry the closes, with unit volume. *)
Definition bars (idx : list Z) (closes : list R) : DataFrame :=
  let c := Num <$> closes in
  ohlcv idx c c c c ((λ _, Num 1) <$> closes).

Definition bars1 : DataFrame := bars [1%Z] [10].

Definition bars3 : DataFrame := bars [1%Z; 2%Z; 3%Z] [10; 11; 12].

(** Fourteen daily bars with a strictly increasing close, and fourteen with
    a flat close. *)
Definition days14 : list Z :=
  [1; 2; 3; 4; 5; 6; 7; 8; 9; 10; 11; 12; 13; 14]%Z.

Definition rising14 : list R :=
  [1; 2; 3; 4; 5; 6; 7; 8; 9; 10; 11; 12; 13; 14].

Definition flat14 : list R :=
  [5; 5; 5; 5; 5; 5; 5; 5; 5; 5; 5; 5; 5; 5].

(** A malformed download: the timestamp 2 comes twice, the timestamps go
    back from 3 to 1, and one close is NaN and one volume infinite. *)
Definition malformed : DataFrame :=
  ohlcv [1; 2; 2; 3; 1]%Z
    [Num 10; Num 11; Num 12; Num 13; Num 14]
    [Num 10; Num 11; Num 12; Num 13; Num 14]
    [Num 10; Num 11; Num 12; Num 13; Num 14]
    [Num 10; NaN; Num 12; Num 13; Num 14]
    [Num 1; Num 1; PInf; Num 1; Num 1].

(** * Proofs *)

(** ** Windows *)

Section windows.
Context {A : Type}.
Implicit Types (l : list A) (k i : nat).

Lemma lastn_0 l : lastn 0 l = [].
Proof. unfold lastn. rewrite Nat.sub_0_r. apply drop_all. Qed.

Lemma lastn_short k l : (length l ≤ k)%nat → lastn k l = l.
Proof. intros H. unfold lastn. by replace (length l - k)%nat with 0%nat by lia. Qed.

Lemma length_lastn k l : length (lastn k l) = (length l `min` k)%nat.
Proof. unfold lastn. rewrite length_drop. lia. Qed.

Lemma lastn_push k l x : lastn k (lastn k l ++ [x]) = lastn k (l ++ [x]).
Proof.
  destruct (decide (length l ≤ k)%nat) as [Hle|Hgt].
  { by rewrite (lastn_short k l). }
  destruct k as [|k]; [by rewrite !lastn_0|].
  unfold lastn at 1 3. rewrite !length_app, length_lastn. simpl.
  replace (length l `min` S k + 1 - S k)%nat with 1%nat by lia.
  unfold lastn.
  rewrite (drop_app_le l [x] (length l + 1 - S k)) by lia.
  rewrite drop_app_le by (rewrite length_drop; lia).
  rewrite drop_drop. do 2 f_equal. lia.
Qed.

Lemma lastn_take_short k l i :
  (i + 1 < k)%nat → lastn k (take (S i) l) = take (S i) l.
Proof.
  intros Hlt. apply lastn_short.
  pose proof (length_take_ge l (S i)). pose proof (length_take_le l (S i)). lia.
Qed.

Lemma lastn_take_full k l i :
  (k ≤ i + 1)%nat → (i < length l)%nat →
  lastn k (take (S i) l) = spec_window l k i.
Proof.
  intros Hk Hi. unfold lastn, spec_window. rewrite length_take_le by lia.
  replace (S i - k)%nat with (i + 1 - k)%nat by lia.
  rewrite take_drop_commute. do 2 f_equal. lia.
Qed.

Lemma length_spec_window k l i :
  (k ≤ i + 1)%nat → (i < length l)%nat → length (spec_window l k i) = k.
Proof.
  intros Hk Hi. unfold spec_window. rewrite length_take, length_drop. lia.
Qed.
End windows.

(** ** Rolling windows *)

Lemma length_observations buf : (length (observations buf) ≤ length buf)%nat.
Proof. induction buf as [|[x|] buf IH]; simpl; lia. Qed.

Lemma observations_Some (w : list R) : observations (Some <$> w) = w.
Proof. induction w as [|x w IH]; simpl; [done|]. f_equal. apply IH. Qed.

Lemma prep_values_Num (w : list R) : prep_values (Num <$> w) = Some <$> w.
Proof. unfold prep_values. by rewrite <- list_fmap_compose. Qed.

Lemma length_rolling_from k agg buf vals :
  length (rolling_from k agg buf vals) = length vals.
Proof.
  revert buf. induction vals as [|x vals IH]; intros buf; simpl; [done|].
  by rewrite IH.
Qed.

Lemma length_rolling k agg s : length (rolling k agg s) = length s.
Proof. unfold rolling, prep_values. by rewrite length_rolling_from, length_fmap. Qed.

Lemma rolling_from_lookup k agg pre vals i :
  (i < length vals)%nat →
  rolling_from k agg (lastn k pre) vals !! i
  = Some (window_result k agg (lastn k (pre ++ take (S i) vals))).
Proof.
  revert pre i. induction vals as [|x vals IH]; intros pre i Hi; simpl in Hi; [lia|].
  simpl. unfold push_window. rewrite lastn_push. destruct i as [|i]; simpl.
  - by rewrite take_0.
  - rewrite IH by lia. by rewrite <- app_assoc.
Qed.

Lemma rolling_lookup k agg s i :
  (i < length s)%nat →
  rolling k agg s !! i
  = Some (window_result k agg (lastn k (take (S i) (prep_values s)))).
Proof.
  intros Hi. unfold rolling.
  pose proof (rolling_from_lookup k agg [] (prep_values s) i) as H.
  rewrite lastn_short in H by (simpl; lia). apply H.
  unfold prep_values. by rewrite length_fmap.
Qed.

(** Warm-up: fewer than [k] cells seen. *)
Lemma rolling_warmup k agg s i :
  (i < length s)%nat → (i + 1 < k)%nat → rolling k agg s !! i = Some NaN.
Proof.
  intros Hi Hk. rewrite rolling_lookup by done. f_equal.
  rewrite lastn_take_short by done. unfold window_result.
  pose proof (length_observations (take (S i) (prep_values s))) as Hobs.
  pose proof (length_take_le (prep_values s) (S i)) as Htake.
  unfold prep_values in Htake. rewrite length_fmap in Htake.
  rewrite decide_True; [done|]. unfold prep_values in *. lia.
Qed.

(** A full window of finite cells. *)
Lemma rolling_full k agg s i (w : list R) :
  (i < length s)%nat → (k ≤ i + 1)%nat → spec_window s k i = Num <$> w →
  rolling k agg s !! i = Some (agg w).
Proof.
  intros Hi Hk Hw. rewrite rolling_lookup by done. f_equal.
  assert (length (prep_values s) = length s) as Hlen
    by (unfold prep_values; by rewrite length_fmap).
  rewrite lastn_take_full by lia.
  assert (spec_window (prep_values s) k i = Some <$> w) as ->.
  { unfold spec_window, prep_values in *.
    rewrite <- fmap_drop, <- fmap_take, Hw. apply prep_values_Num. }
  unfold window_result. rewrite observations_Some.
  assert (length w = k) as Hwk.
  { rewrite <- (length_fmap Num w), <- Hw. by apply length_spec_window. }
  rewrite decide_False by lia. done.
Qed.

Lemma observations_cons o buf :
  observations (o :: buf)
  = match o with Some x => x :: observations buf | None => observations buf end.
Proof. by destruct o. Qed.

Lemma observations_gap (l : list float) j v :
  l !! j = Some v → observation v = None →
  (length (observations (observation <$> l)) < length l)%nat.
Proof.
  revert j. induction l as [|y l IH]; intros j Hj Hv; [done|].
  rewrite fmap_cons, observations_cons.
  pose proof (length_observations (observation <$> l)) as Hle.
  rewrite length_fmap in Hle.
  destruct j as [|j]; simpl in Hj.
  - injection Hj as ->. rewrite Hv. simpl. lia.
  - specialize (IH j Hj Hv). destruct (observation y); simpl; lia.
Qed.

(** A window with a cell that is not finite. *)
Lemma rolling_gap k agg s i j v :
  (i < length s)%nat → (k ≤ i + 1)%nat →
  spec_window s k i !! j = Some v → observation v = None →
  rolling k agg s !! i = Some NaN.
Proof.
  intros Hi Hk Hj Hv. rewrite rolling_lookup by done. f_equal.
  assert (length (prep_values s) = length s) as Hlen
    by (unfold prep_values; by rewrite length_fmap).
  rewrite lastn_take_full by lia.
  assert (spec_window (prep_values s) k i = observation <$> spec_window s k i) as ->.
  { unfold spec_window, prep_values. by rewrite fmap_take, fmap_drop. }
  unfold window_result. rewrite decide_True; [done|].
  pose proof (length_spec_window k s i Hk Hi) as Hlenw.
  pose proof (observations_gap _ _ _ Hj Hv). lia.
Qed.

(** ** Frames *)

Lemma getitem_setitem data name s : getitem (setitem data name s) name = Ok s.
Proof. unfold getitem, setitem. simpl. by rewrite lookup_insert_eq. Qed.

Lemma getitem_setitem_ne data name name' s :
  name ≠ name' → getitem (setitem data name s) name' = getitem data name'.
Proof. intros Hne. unfold getitem, setitem. simpl. by rewrite lookup_insert_ne. Qed.

(** ** Metrics row *)

(** C10: on a frame that passes the emptiness test with a single bar, the
    metrics row raises [IndexError] at [data['Close'].iloc[-2]]; the run
    ends there, before any indicator is computed or any chart drawn. *)
Theorem single_bar_index_error (data : DataFrame) (indicators : list string) (c : float) :
  empty data = false →
  getitem data "Close" = Ok [c] →
  metrics_row data = Raise IndexError ∧
  dashboard (Some data) indicators = Raised IndexError.
Proof.
  intros Hne Hclose.
  assert (metrics_row data = Raise IndexError) as Hm.
  { unfold metrics_row. rewrite Hclose. reflexivity. }
  split; [done|]. unfold dashboard. by rewrite Hne, Hm.
Qed.

Lemma single_bar_index_error_witness :
  empty bars1 = false ∧ getitem bars1 "Close" = Ok [Num 10] ∧
  metrics_row bars1 = Raise IndexError ∧
  dashboard (Some bars1) ["SMA 20"; "RSI"] = Raised IndexError.
Proof.
  split; [reflexivity|]. split; [reflexivity|].
  apply (single_bar_index_error bars1 ["SMA 20"; "RSI"] (Num 10)); reflexivity.
Defined.

(** ** Simple moving average *)

Lemma agg_mean_spec (w : list R) : (0 < length w)%nat → agg_mean w = Num (spec_mean w).
Proof. intros Hw. unfold agg_mean. by rewrite decide_False by lia. Qed.

Lemma rolling_mean_full k s i (w : list R) :
  (0 < k)%nat → (i < length s)%nat → (k - 1 ≤ i)%nat →
  spec_window s k i = Num <$> w →
  rolling_mean k s !! i = Some (Num (spec_mean w)).
Proof.
  intros Hk Hi Hki Hw. unfold rolling_mean.
  rewrite (rolling_full k agg_mean s i w) by (done || lia).
  rewrite agg_mean_spec; [done|].
  assert (length w = k) as ->; [|done].
  rewrite <- (length_fmap Num w), <- Hw. apply length_spec_window; lia.
Qed.

Lemma rolling_short k agg s :
  (length s < k)%nat → rolling k agg s = replicate (length s) NaN.
Proof.
  intros Hlt. apply list_eq. intros i.
  destruct (decide (i < length s)%nat) as [Hi|Hi].
  - rewrite rolling_warmup by lia. symmetry. by apply lookup_replicate_2.
  - rewrite !lookup_ge_None_2; [done| |].
    + rewrite length_replicate. lia.
    + rewrite length_rolling. lia.
Qed.

(** C5: the SMA column of a window [k > 0] has the length of the close
    column; it is NaN at every position [i < k - 1]; at every position
    [i >= k - 1] whose window [close[i-k+1 ..= i]] holds finite values it is
    their arithmetic mean (and NaN when a cell of the window is missing);
    and on a series shorter than the window it is NaN throughout. *)
Theorem sma_window_mean (data : DataFrame) (name : string) (close : Series) (k : nat) :
  (0 < k)%nat →
  getitem data "Close" = Ok close →
  ∃ data' sma,
    add_sma name k data = Ok data' ∧ getitem data' name = Ok sma ∧
    length sma = length close ∧
    (∀ i, (i < length close)%nat → (i < k - 1)%nat → sma !! i = Some NaN) ∧
    (∀ i w, (i < length close)%nat → (k - 1 ≤ i)%nat →
       spec_window close k i = Num <$> w → sma !! i = Some (Num (spec_mean w))) ∧
    (∀ i j v, (i < length close)%nat → (k - 1 ≤ i)%nat →
       spec_window close k i !! j = Some v → observation v = None →
       sma !! i = Some NaN) ∧
    ((length close < k)%nat → sma = replicate (length close) NaN).
Proof.
  intros Hk Hclose. unfold add_sma. rewrite Hclose. simpl.
  eexists _, _. split; [done|]. split; [apply getitem_setitem|].
  split; [apply length_rolling|]. split; [|split; [|split]].
  - intros i Hi Hik. apply rolling_warmup; [done|lia].
  - intros i w Hi Hik Hw. by apply rolling_mean_full.
  - intros i j v Hi Hik Hj Hv. apply (rolling_gap k agg_mean close i j v); (done || lia).
  - apply rolling_short.
Qed.

Lemma sma_window_mean_witness :
  ∃ data' sma,
    add_sma "SMA_20" 2 bars3 = Ok data' ∧ getitem data' "SMA_20" = Ok sma ∧
    length sma = 3%nat ∧
    (∀ i, (i < 3)%nat → (i < 2 - 1)%nat → sma !! i = Some NaN) ∧
    (∀ i w, (i < 3)%nat → (2 - 1 ≤ i)%nat →
       spec_window [Num 10; Num 11; Num 12] 2 i = Num <$> w →
       sma !! i = Some (Num (spec_mean w))) ∧
    (∀ i j v, (i < 3)%nat → (2 - 1 ≤ i)%nat →
       spec_window [Num 10; Num 11; Num 12] 2 i !! j = Some v →
       observation v = None → sma !! i = Some NaN) ∧
    ((3 < 2)%nat → sma = replicate 3 NaN).
Proof.
  apply (sma_window_mean bars3 "SMA_20" [Num 10; Num 11; Num 12] 2); [lia|reflexivity].
Defined.

(** A rolling mean of window 2 over three closes. *)
Example sma_bars3 :
  rolling_mean 2 [Num 10; Num 11; Num 12]
  = [NaN; Num ((10 + (11 + 0)) / INR 2); Num ((11 + (12 + 0)) / INR 2)].
Proof. reflexivity. Qed.

(** ** Bollinger bands *)

Lemma ssqdm_spec (w : list R) :
  ssqdm w = Rsum ((λ x, (x - spec_mean w) ^ 2) <$> w).
Proof.
  unfold ssqdm, spec_mean. f_equal. apply list_fmap_ext. intros _ x _. simpl. lra.
Qed.

Lemma agg_std_spec (w : list R) :
  (2 ≤ length w)%nat → agg_std w = Num (spec_sample_std w).
Proof.
  intros Hw. unfold agg_std, agg_var. rewrite decide_False by lia.
  simpl. unfold spec_sample_std. by rewrite ssqdm_spec.
Qed.

Lemma rolling_std_full k s i (w : list R) :
  (2 ≤ k)%nat → (i < length s)%nat → (k - 1 ≤ i)%nat →
  spec_window s k i = Num <$> w →
  rolling_std k s !! i = Some (Num (spec_sample_std w)).
Proof.
  intros Hk Hi Hki Hw. unfold rolling_std.
  rewrite (rolling_full k agg_std s i w) by (done || lia).
  rewrite agg_std_spec; [done|].
  assert (length w = k) as ->; [|done].
  rewrite <- (length_fmap Num w), <- Hw. apply length_spec_window; lia.
Qed.

(** Every cell of a rolling mean is NaN or finite; every cell of a rolling
    standard deviation is NaN or a non-negative number. *)
Lemma rolling_mean_cell k s i v :
  rolling_mean k s !! i = Some v → v = NaN ∨ ∃ x, v = Num x.
Proof.
  intros Hv. assert (i < length s)%nat as Hi.
  { rewrite <- (length_rolling k agg_mean). by eapply lookup_lt_Some. }
  unfold rolling_mean in Hv. rewrite rolling_lookup in Hv by done.
  injection Hv as <-. unfold window_result, agg_mean.
  repeat case_decide; eauto.
Qed.

Lemma rolling_std_cell k s i v :
  rolling_std k s !! i = Some v → v = NaN ∨ ∃ x, v = Num x ∧ 0 <= x.
Proof.
  intros Hv. assert (i < length s)%nat as Hi.
  { rewrite <- (length_rolling k agg_std). by eapply lookup_lt_Some. }
  unfold rolling_std in Hv. rewrite rolling_lookup in Hv by done.
  injection Hv as <-. unfold window_result, agg_std, agg_var.
  repeat case_decide; simpl; eauto using sqrt_pos.
Qed.

Lemma bind_Ok {A B} (f : A → result B) (a : A) : (Ok a ≫= f) = f a.
Proof. done. Qed.

(** Run the reads and writes of a block symbolically. *)
Ltac frame_step :=
  first
    [ rewrite bind_Ok
    | rewrite getitem_setitem
    | rewrite getitem_setitem_ne by done
    | match goal with H : getitem _ _ = Ok _ |- _ => rewrite H end ].
Ltac frame_run := repeat frame_step.

Lemma add_bollinger_columns data close k m :
  getitem data "Close" = Ok close →
  ∃ data',
    add_bollinger k m data = Ok data' ∧
    getitem data' "BB_Middle" = Ok (rolling_mean k close) ∧
    getitem data' "BB_Upper"
    = Ok (series_add (rolling_mean k close)
            (scalar_mul (Num m) (rolling_std k close))) ∧
    getitem data' "BB_Lower"
    = Ok (series_sub (rolling_mean k close)
            (scalar_mul (Num m) (rolling_std k close))).
Proof.
  intros Hclose. unfold add_bollinger. frame_run.
  eexists. split; [done|]. by frame_run.
Qed.

(** C6: the three band columns.  The middle band is the rolling mean of
    the close, the upper and lower bands are the middle band plus and
    minus [m] times the rolling standard deviation; at a position whose
    window [w] holds finite values (window [k >= 2]) the three cells are
    [mean w], [mean w + m * std w] and [mean w - m * std w], with the same
    sample standard deviation ([ddof = 1]) in both bands. *)
Theorem bollinger_bands_contract (data : DataFrame) (close : Series) (k : nat) (m : R) :
  getitem data "Close" = Ok close →
  ∃ data' middle upper lower,
    add_bollinger k m data = Ok data' ∧
    getitem data' "BB_Middle" = Ok middle ∧
    getitem data' "BB_Upper" = Ok upper ∧
    getitem data' "BB_Lower" = Ok lower ∧
    middle = rolling_mean k close ∧
    upper = series_add middle (scalar_mul (Num m) (rolling_std k close)) ∧
    lower = series_sub middle (scalar_mul (Num m) (rolling_std k close)) ∧
    (∀ i w, (2 ≤ k)%nat → (i < length close)%nat → (k - 1 ≤ i)%nat →
       spec_window close k i = Num <$> w →
       middle !! i = Some (Num (spec_mean w)) ∧
       upper !! i = Some (Num (spec_mean w + m * spec_sample_std w)) ∧
       lower !! i = Some (Num (spec_mean w - m * spec_sample_std w))).
Proof.
  intros Hclose.
  destruct (add_bollinger_columns data close k m Hclose)
    as (data' & Hrun & Hmid & Hup & Hlo).
  eexists data', _, _, _. repeat (split; [done|]).
  intros i w Hk Hi Hki Hw.
  pose proof (rolling_mean_full k close i w ltac:(lia) Hi Hki Hw) as Hm.
  pose proof (rolling_std_full k close i w Hk Hi Hki Hw) as Hs.
  split; [done|]. unfold series_add, series_sub, scalar_mul.
  rewrite !lookup_zip_with, !list_lookup_fmap, Hm, Hs. simpl.
  split; do 2 f_equal; lra.
Qed.

Lemma bollinger_bands_contract_witness :
  ∃ data' middle upper lower,
    add_bollinger 2 2 bars3 = Ok data' ∧
    getitem data' "BB_Middle" = Ok middle ∧
    getitem data' "BB_Upper" = Ok upper ∧
    getitem data' "BB_Lower" = Ok lower ∧
    middle = rolling_mean 2 [Num 10; Num 11; Num 12] ∧
    upper = series_add middle (scalar_mul (Num 2) (rolling_std 2 [Num 10; Num 11; Num 12])) ∧
    lower = series_sub middle (scalar_mul (Num 2) (rolling_std 2 [Num 10; Num 11; Num 12])) ∧
    (∀ i w, (2 ≤ 2)%nat → (i < 3)%nat → (2 - 1 ≤ i)%nat →
       spec_window [Num 10; Num 11; Num 12] 2 i = Num <$> w →
       middle !! i = Some (Num (spec_mean w)) ∧
       upper !! i = Some (Num (spec_mean w + 2 * spec_sample_std w)) ∧
       lower !! i = Some (Num (spec_mean w - 2 * spec_sample_std w))).
Proof.
  apply (bollinger_bands_contract bars3 [Num 10; Num 11; Num 12] 2 2). reflexivity.
Defined.

(** C7: wherever the three band cells are defined (not NaN), they are
    ordered [lower <= middle <= upper], for a multiplier [m >= 0]. *)
Theorem bollinger_ordering (data : DataFrame) (close : Series) (k : nat) (m : R) :
  0 <= m →
  getitem data "Close" = Ok close →
  ∃ data' middle upper lower,
    add_bollinger k m data = Ok data' ∧
    getitem data' "BB_Middle" = Ok middle ∧
    getitem data' "BB_Upper" = Ok upper ∧
    getitem data' "BB_Lower" = Ok lower ∧
    ∀ i lo mid up,
      lower !! i = Some lo → middle !! i = Some mid → upper !! i = Some up →
      lo ≠ NaN → mid ≠ NaN → up ≠ NaN →
      fle lo mid ∧ fle mid up.
Proof.
  intros Hm Hclose.
  destruct (add_bollinger_columns data close k m Hclose)
    as (data' & Hrun & Hmid & Hup & Hlo).
  eexists data', _, _, _. repeat (split; [done|]).
  intros i lo mid up Hl Hmi Hu Hlo_def Hmid_def Hup_def.
  unfold series_add, series_sub, scalar_mul in *.
  rewrite lookup_zip_with, list_lookup_fmap, Hmi in Hl, Hu.
  destruct (rolling_std k close !! i) as [sd|] eqn:Hsd; [|done].
  simpl in Hl, Hu. injection Hl as <-. injection Hu as <-.
  destruct (rolling_mean_cell _ _ _ _ Hmi) as [->|[a ->]]; [done|].
  destruct (rolling_std_cell _ _ _ _ Hsd) as [->|(x & -> & Hx)]; [done|].
  simpl. nra.
Qed.

Lemma bollinger_ordering_witness :
  ∃ data' middle upper lower,
    add_bollinger 2 2 bars3 = Ok data' ∧
    getitem data' "BB_Middle" = Ok middle ∧
    getitem data' "BB_Upper" = Ok upper ∧
    getitem data' "BB_Lower" = Ok lower ∧
    ∀ i lo mid up,
      lower !! i = Some lo → middle !! i = Some mid → upper !! i = Some up →
      lo ≠ NaN → mid ≠ NaN → up ≠ NaN →
      fle lo mid ∧ fle mid up.
Proof.
  apply (bollinger_ordering bars3 [Num 10; Num 11; Num 12] 2 2); [lra|reflexivity].
Defined.

(** ** Exponential recurrence *)

(** On observations only, a step of [ewm] is the textbook recurrence. *)
Lemma ewm_step_finite alpha w c :
  ewm_step alpha (Some w, 1) (Some c) = (Some (alpha * c + (1 - alpha) * w), 1).
Proof.
  unfold ewm_step. simpl. do 2 f_equal. case_decide as Heq.
  - subst. lra.
  - field. lra.
Qed.

Lemma spec_ewm_cons alpha c0 c cs i :
  spec_ewm alpha (c0 :: c :: cs) (S i)
  = spec_ewm alpha ((alpha * c + (1 - alpha) * c0) :: cs) i.
Proof.
  induction i as [|i IH]; simpl.
  - done.
  - simpl in IH. rewrite IH. destruct i; done.
Qed.

Lemma ewm_from_finite alpha c0 (cs : list R) i :
  (i < length cs)%nat →
  ewm_from alpha (Some c0, 1) (Some <$> cs) !! i
  = Some (Num (spec_ewm alpha (c0 :: cs) (S i))).
Proof.
  revert c0 i. induction cs as [|c cs IH]; intros c0 i Hi; simpl in Hi; [lia|].
  rewrite fmap_cons. cbn [ewm_from]. rewrite ewm_step_finite.
  destruct i as [|i]; [done|].
  cbn [lookup list_lookup]. rewrite IH by lia. by rewrite spec_ewm_cons.
Qed.

Lemma length_ewm_from alpha st vals : length (ewm_from alpha st vals) = length vals.
Proof.
  revert st. induction vals as [|v vals IH]; intros st; simpl; [done|]. by rewrite IH.
Qed.

Lemma length_spec_ewm_series alpha cs : length (spec_ewm_series alpha cs) = length cs.
Proof. unfold spec_ewm_series. by rewrite length_fmap, length_seq. Qed.

Lemma lookup_spec_ewm_series alpha cs i :
  (i < length cs)%nat → spec_ewm_series alpha cs !! i = Some (spec_ewm alpha cs i).
Proof.
  intros Hi. unfold spec_ewm_series.
  by rewrite list_lookup_fmap, lookup_seq_lt.
Qed.

Lemma ewm_mean_Ok span s :
  1 <= span →
  ewm_mean span s
  = Ok match prep_values s with
       | [] => []
       | v0 :: vals => of_option v0 :: ewm_from (ewm_alpha span) (v0, 1) vals
       end.
Proof. intros Hspan. unfold ewm_mean. by rewrite decide_False by lra. Qed.

Lemma length_ewm_mean span s ema : ewm_mean span s = Ok ema → length ema = length s.
Proof.
  unfold ewm_mean. case_decide; [done|]. intros [= <-].
  unfold prep_values. destruct s as [|x s]; simpl; [done|].
  by rewrite length_ewm_from, length_fmap.
Qed.

(** On a finite series [ewm] computes the recurrence of the contract. *)
Lemma ewm_mean_finite span (cs : list R) :
  1 <= span →
  ewm_mean span (Num <$> cs) = Ok (Num <$> spec_ewm_series (ewm_alpha span) cs).
Proof.
  intros Hspan. rewrite ewm_mean_Ok by done. f_equal.
  rewrite prep_values_Num. destruct cs as [|c0 cs]; [done|].
  apply list_eq. intros i. rewrite fmap_cons, list_lookup_fmap.
  destruct (decide (i < length (c0 :: cs))%nat) as [Hi|Hi].
  - rewrite lookup_spec_ewm_series by done.
    destruct i as [|i]; [done|]. simpl in Hi.
    cbn [lookup list_lookup]. by rewrite ewm_from_finite by lia.
  - rewrite !lookup_ge_None_2; [done| |].
    + rewrite length_spec_ewm_series. lia.
    + simpl in *. rewrite length_ewm_from, length_fmap. lia.
Qed.

(** C3: on a non-empty finite close column and a span [s >= 1], the EMA
    column starts at [close[0]], every later cell is
    [α·close[i] + (1−α)·ema[i−1]] with [α = 2/(s+1)], and every cell is a
    number (there is no warm-up region). *)
Theorem ema_recurrence (data : DataFrame) (name : string) (span : R) (cs : list R) :
  1 <= span →
  cs ≠ [] →
  getitem data "Close" = Ok (Num <$> cs) →
  let alpha := 2 / (span + 1) in
  ∃ data' ema,
    add_ema name span data = Ok data' ∧ getitem data' name = Ok ema ∧
    length ema = length cs ∧
    ema !! 0%nat = Some (Num (nth 0 cs 0)) ∧
    (∀ i, (S i < length cs)%nat →
       ∃ prev, ema !! i = Some (Num prev) ∧
         ema !! S i = Some (Num (alpha * nth (S i) cs 0 + (1 - alpha) * prev))) ∧
    (∀ i, (i < length cs)%nat → ∃ x, ema !! i = Some (Num x)).
Proof.
  intros Hspan Hne Hclose alpha. unfold add_ema. frame_run.
  rewrite ewm_mean_finite by done. frame_run.
  eexists _, _. split; [done|]. split; [by frame_run|].
  assert (∀ i, (i < length cs)%nat →
            (Num <$> spec_ewm_series (ewm_alpha span) cs) !! i
            = Some (Num (spec_ewm alpha cs i))) as Hcell.
  { intros i Hi. by rewrite list_lookup_fmap, lookup_spec_ewm_series. }
  split; [by rewrite length_fmap, length_spec_ewm_series|].
  split; [|split].
  - rewrite Hcell; [done|]. destruct cs; [done|simpl; lia].
  - intros i Hi. exists (spec_ewm alpha cs i). by rewrite !Hcell by lia.
  - intros i Hi. eauto.
Qed.

Lemma ema_recurrence_witness :
  let alpha := 2 / (20 + 1) in
  ∃ data' ema,
    add_ema "EMA_20" 20 bars3 = Ok data' ∧ getitem data' "EMA_20" = Ok ema ∧
    length ema = 3%nat ∧
    ema !! 0%nat = Some (Num 10) ∧
    (∀ i, (S i < 3)%nat →
       ∃ prev, ema !! i = Some (Num prev) ∧
         ema !! S i = Some (Num (alpha * nth (S i) [10; 11; 12] 0 + (1 - alpha) * prev))) ∧
    (∀ i, (i < 3)%nat → ∃ x, ema !! i = Some (Num x)).
Proof.
  apply (ema_recurrence bars3 "EMA_20" 20 [10; 11; 12]); [lra|done|reflexivity].
Defined.

(** ** MACD *)

Lemma series_sub_finite (a b : list R) :
  series_sub (Num <$> a) (Num <$> b) = Num <$> zip_with Rminus a b.
Proof.
  unfold series_sub. revert b. induction a as [|x a IH]; intros [|y b]; simpl; try done.
  by rewrite IH.
Qed.

Lemma length_spec_macd_line fast slow cs :
  length (spec_macd_line fast slow cs) = length cs.
Proof.
  unfold spec_macd_line. rewrite length_zip_with, !length_spec_ewm_series. lia.
Qed.

Lemma lookup_spec_macd_line fast slow cs i :
  (i < length cs)%nat →
  spec_macd_line fast slow cs !! i
  = Some (spec_ewm (ewm_alpha fast) cs i - spec_ewm (ewm_alpha slow) cs i).
Proof.
  intros Hi. unfold spec_macd_line.
  by rewrite lookup_zip_with, !lookup_spec_ewm_series by done.
Qed.

Lemma spec_ewm_lookup alpha (values : list R) i prev x :
  spec_ewm_series alpha values !! i = Some prev →
  values !! S i = Some x →
  spec_ewm_series alpha values !! S i = Some (alpha * x + (1 - alpha) * prev).
Proof.
  intros Hprev Hx. pose proof (lookup_lt_Some _ _ _ Hx) as Hi.
  rewrite lookup_spec_ewm_series in Hprev by lia. injection Hprev as <-.
  rewrite lookup_spec_ewm_series by lia. simpl.
  by rewrite (nth_lookup_Some _ _ _ _ Hx).
Qed.

(** C4: on a non-empty finite close column, the MACD column is the
    cell-by-cell difference of the fast and the slow EMA of the close, and
    the signal column is the EMA of the MACD column itself: it starts at
    [macd[0]] and follows the recurrence on the MACD cells.  The dashboard
    runs the block with the spans 12, 26 and 9. *)
Theorem macd_contract (data : DataFrame) (fast slow signal : R) (cs : list R) :
  1 <= fast → 1 <= slow → 1 <= signal →
  cs ≠ [] →
  getitem data "Close" = Ok (Num <$> cs) →
  ∃ data' ema_fast ema_slow macd sig,
    add_macd fast slow signal data = Ok data' ∧
    getitem data' "MACD_12_26" = Ok macd ∧
    getitem data' "MACD_Signal" = Ok sig ∧
    ewm_mean fast (Num <$> cs) = Ok ema_fast ∧
    ewm_mean slow (Num <$> cs) = Ok ema_slow ∧
    macd = series_sub ema_fast ema_slow ∧
    ewm_mean signal macd = Ok sig ∧
    (∀ i, (i < length cs)%nat →
       macd !! i = Some (Num (spec_ewm (2 / (fast + 1)) cs i
                              - spec_ewm (2 / (slow + 1)) cs i))) ∧
    sig !! 0%nat = macd !! 0%nat ∧
    (∀ i, (S i < length cs)%nat →
       ∃ prev m, sig !! i = Some (Num prev) ∧ macd !! S i = Some (Num m) ∧
         sig !! S i
         = Some (Num (2 / (signal + 1) * m + (1 - 2 / (signal + 1)) * prev))).
Proof.
  intros Hfast Hslow Hsignal Hne Hclose. unfold add_macd.
  repeat first [ frame_step | rewrite ewm_mean_finite by done
               | rewrite series_sub_finite ].
  fold (spec_macd_line fast slow cs).
  set (ml := spec_macd_line fast slow cs).
  set (sl := spec_ewm_series (ewm_alpha signal) ml).
  assert (length ml = length cs) as Hml by apply length_spec_macd_line.
  exists (setitem (setitem data "MACD_12_26" (Num <$> ml)) "MACD_Signal" (Num <$> sl)),
    (Num <$> spec_ewm_series (ewm_alpha fast) cs),
    (Num <$> spec_ewm_series (ewm_alpha slow) cs),
    (Num <$> ml), (Num <$> sl).
  split; [done|]. split; [by frame_run|]. split; [by frame_run|].
  split; [done|]. split; [done|]. split; [by rewrite series_sub_finite|].
  split; [by apply ewm_mean_finite|]. split; [|split].
  - intros i Hi. rewrite list_lookup_fmap. unfold ml.
    by rewrite lookup_spec_macd_line.
  - rewrite !list_lookup_fmap. unfold sl.
    destruct ml as [|m0 ml'] eqn:Heq; [done|].
    rewrite lookup_spec_ewm_series by (simpl; lia). done.
  - intros i Hi.
    destruct (lookup_lt_is_Some_2 ml (S i) ltac:(lia)) as [m Hm].
    destruct (lookup_lt_is_Some_2 sl i) as [prev Hprev].
    { unfold sl. rewrite length_spec_ewm_series. lia. }
    exists prev, m. rewrite !list_lookup_fmap, Hprev, Hm. simpl.
    split; [done|]. split; [done|]. unfold sl.
    by rewrite (spec_ewm_lookup _ _ _ _ _ Hprev Hm).
Qed.

Lemma macd_contract_witness :
  ∃ data' ema_fast ema_slow macd sig,
    add_macd 12 26 9 bars3 = Ok data' ∧
    getitem data' "MACD_12_26" = Ok macd ∧
    getitem data' "MACD_Signal" = Ok sig ∧
    ewm_mean 12 (Num <$> [10; 11; 12]) = Ok ema_fast ∧
    ewm_mean 26 (Num <$> [10; 11; 12]) = Ok ema_slow ∧
    macd = series_sub ema_fast ema_slow ∧
    ewm_mean 9 macd = Ok sig ∧
    (∀ i, (i < 3)%nat →
       macd !! i = Some (Num (spec_ewm (2 / (12 + 1)) [10; 11; 12] i
                              - spec_ewm (2 / (26 + 1)) [10; 11; 12] i))) ∧
    sig !! 0%nat = macd !! 0%nat ∧
    (∀ i, (S i < 3)%nat →
       ∃ prev m, sig !! i = Some (Num prev) ∧ macd !! S i = Some (Num m) ∧
         sig !! S i
         = Some (Num (2 / (9 + 1) * m + (1 - 2 / (9 + 1)) * prev))).
Proof.
  apply (macd_contract bars3 12 26 9 [10; 11; 12]); [lra|lra|lra|done|reflexivity].
Defined.

(** ** RSI *)

Lemma length_diff s : length (diff s) = length s.
Proof. destruct s as [|x s]; simpl; [done|]. rewrite length_zip_with. simpl. lia. Qed.

Lemma length_where_gt s c other :
  length (where_ s (series_gt s c) other) = length s.
Proof. unfold where_, series_gt. rewrite length_zip_with, length_fmap. lia. Qed.

Lemma length_where_lt s c other :
  length (where_ s (series_lt s c) other) = length s.
Proof. unfold where_, series_lt. rewrite length_zip_with, length_fmap. lia. Qed.

Lemma length_rsi_gain k close : length (rsi_gain k close) = length close.
Proof.
  unfold rsi_gain, rolling_mean, rsi_delta.
  by rewrite length_rolling, length_where_gt, length_diff.
Qed.

Lemma length_rsi_loss k close : length (rsi_loss k close) = length close.
Proof.
  unfold rsi_loss, rolling_mean, rsi_delta, series_neg.
  by rewrite length_rolling, length_fmap, length_where_lt, length_diff.
Qed.

(** One cell of the RSI column from the two averages. *)
Lemma rsi_lookup k close i :
  rsi k close !! i
  = g ← rsi_gain k close !! i; l ← rsi_loss k close !! i;
    Some (fsub (Num 100) (fdiv (Num 100) (fadd (Num 1) (fdiv g l)))).
Proof.
  unfold rsi, rsi_rs, scalar_sub, scalar_div, scalar_add, series_div.
  rewrite !list_lookup_fmap, lookup_zip_with.
  destruct (rsi_gain k close !! i), (rsi_loss k close !! i); done.
Qed.

Lemma rsi_rs_lookup k close i :
  rsi_rs k close !! i
  = g ← rsi_gain k close !! i; l ← rsi_loss k close !! i; Some (fdiv g l).
Proof. unfold rsi_rs, series_div. by rewrite lookup_zip_with. Qed.

Lemma length_rsi k close : length (rsi k close) = length close.
Proof.
  unfold rsi, rsi_rs, scalar_sub, scalar_div, scalar_add, series_div.
  rewrite !length_fmap, length_zip_with, length_rsi_gain, length_rsi_loss. lia.
Qed.

(** NaN in either average makes the RSI cell NaN. *)
Lemma rsi_cell_defined g l :
  fsub (Num 100) (fdiv (Num 100) (fadd (Num 1) (fdiv g l))) ≠ NaN →
  g ≠ NaN ∧ l ≠ NaN.
Proof. destruct g, l; simpl; done. Qed.

(** An infinite quotient, of either sign, gives the cell 100. *)
Lemma rsi_cell_infinite rs :
  infinite rs → fsub (Num 100) (fdiv (Num 100) (fadd (Num 1) rs)) = Num 100.
Proof. intros [-> | ->]; simpl; f_equal; lra. Qed.

(** A zero average loss under a non-zero average gain: the quotient is
    infinite and the cell is 100. *)
Lemma rsi_cell_zero_loss g :
  g ≠ 0 →
  infinite (fdiv (Num g) (Num 0)) ∧
  fsub (Num 100) (fdiv (Num 100) (fadd (Num 1) (fdiv (Num g) (Num 0)))) = Num 100.
Proof.
  intros Hg. assert (infinite (fdiv (Num g) (Num 0))) as Hinf.
  { unfold fdiv, sign_inf, infinite. rewrite decide_True by done.
    destruct (decide (0 < g)); [by left|]. rewrite decide_True by lra. by right. }
  split; [done|]. by apply rsi_cell_infinite.
Qed.

(** Both averages zero: [0/0] is NaN and so is the cell. *)
Lemma rsi_cell_zero_zero :
  fdiv (Num 0) (Num 0) = NaN ∧
  fsub (Num 100) (fdiv (Num 100) (fadd (Num 1) (fdiv (Num 0) (Num 0)))) = NaN.
Proof.
  assert (fdiv (Num 0) (Num 0) = NaN) as ->; [|done].
  unfold fdiv, sign_inf. rewrite decide_True by done.
  rewrite decide_False by lra. by rewrite decide_False by lra.
Qed.

Lemma where_gt_fmap s c other :
  where_ s (series_gt s c) other = (λ x, if fgtb x c then x else other) <$> s.
Proof.
  unfold where_, series_gt. induction s as [|x s IH]; [done|].
  rewrite !fmap_cons. cbn [zip_with]. by rewrite IH.
Qed.

Lemma where_lt_fmap s c other :
  where_ s (series_lt s c) other = (λ x, if fltb x c then x else other) <$> s.
Proof.
  unfold where_, series_lt. induction s as [|x s IH]; [done|].
  rewrite !fmap_cons. cbn [zip_with]. by rewrite IH.
Qed.

Lemma diff_finite (cs : list R) :
  diff (Num <$> cs)
  = match cs with [] => [] | _ => NaN :: (Num <$> spec_delta cs) end.
Proof.
  destruct cs as [|c cs]; [done|]. unfold diff, spec_delta.
  rewrite fmap_cons. f_equal. rewrite <- fmap_cons. apply series_sub_finite.
Qed.

(** On a finite close the two series handed to the rolling mean are
    finite, with a zero in the first cell. *)
Lemma raw_gains_finite (cs : list R) :
  let delta := rsi_delta (Num <$> cs) in
  where_ delta (series_gt delta (Num 0)) (Num 0) = Num <$> raw_gains cs.
Proof.
  simpl. unfold rsi_delta. rewrite where_gt_fmap, diff_finite.
  destruct cs as [|c cs]; [done|]. unfold raw_gains.
  rewrite !fmap_cons. f_equal. rewrite <- !list_fmap_compose.
  apply list_fmap_ext. intros _ d _. simpl. case_bool_decide.
  - by rewrite Rmax_left by lra.
  - by rewrite Rmax_right by lra.
Qed.

Lemma raw_losses_finite (cs : list R) :
  let delta := rsi_delta (Num <$> cs) in
  series_neg (where_ delta (series_lt delta (Num 0)) (Num 0)) = Num <$> raw_losses cs.
Proof.
  simpl. unfold rsi_delta, series_neg. rewrite where_lt_fmap, diff_finite.
  destruct cs as [|c cs]; [done|]. unfold raw_losses.
  rewrite !fmap_cons. simpl. rewrite Ropp_0. f_equal.
  rewrite <- !list_fmap_compose.
  apply list_fmap_ext. intros _ d _. simpl. case_bool_decide.
  - by rewrite Rmax_left by lra.
  - rewrite Rmax_right by lra. simpl. by rewrite Ropp_0.
Qed.

Lemma length_raw_gains cs : length (raw_gains cs) = length cs.
Proof.
  destruct cs as [|c cs]; [done|]. unfold raw_gains, spec_delta.
  simpl. rewrite length_fmap, length_zip_with. simpl. lia.
Qed.

Lemma length_raw_losses cs : length (raw_losses cs) = length cs.
Proof.
  destruct cs as [|c cs]; [done|]. unfold raw_losses, spec_delta.
  simpl. rewrite length_fmap, length_zip_with. simpl. lia.
Qed.

Lemma spec_window_fmap {A B} (f : A → B) (l : list A) k i :
  spec_window (f <$> l) k i = f <$> spec_window l k i.
Proof. unfold spec_window. by rewrite fmap_take, fmap_drop. Qed.

Lemma rsi_gain_finite k (cs : list R) i :
  (0 < k)%nat → (i < length cs)%nat → (k - 1 ≤ i)%nat →
  rsi_gain k (Num <$> cs) !! i
  = Some (Num (spec_mean (spec_window (raw_gains cs) k i))).
Proof.
  intros Hk Hi Hki. unfold rsi_gain. rewrite raw_gains_finite.
  apply rolling_mean_full; [done| |done|apply spec_window_fmap].
  by rewrite length_fmap, length_raw_gains.
Qed.

Lemma rsi_loss_finite k (cs : list R) i :
  (0 < k)%nat → (i < length cs)%nat → (k - 1 ≤ i)%nat →
  rsi_loss k (Num <$> cs) !! i
  = Some (Num (spec_mean (spec_window (raw_losses cs) k i))).
Proof.
  intros Hk Hi Hki. unfold rsi_loss. rewrite raw_losses_finite.
  apply rolling_mean_full; [done| |done|apply spec_window_fmap].
  by rewrite length_fmap, length_raw_losses.
Qed.

Lemma rsi_gain_warmup k close i :
  (i < length close)%nat → (i < k - 1)%nat → rsi_gain k close !! i = Some NaN.
Proof.
  intros Hi Hik. unfold rsi_gain, rolling_mean. apply rolling_warmup; [|lia].
  by rewrite length_where_gt, length_diff.
Qed.

Lemma rsi_loss_warmup k close i :
  (i < length close)%nat → (i < k - 1)%nat → rsi_loss k close !! i = Some NaN.
Proof.
  intros Hi Hik. unfold rsi_loss, rolling_mean. apply rolling_warmup; [|lia].
  unfold series_neg. by rewrite length_fmap, length_where_lt, length_diff.
Qed.

(** C1 (as the code has it): the two averages and the RSI are NaN on the
    first [k - 1] positions; the RSI is defined only where both averages
    are; and on a finite close the averages are defined from position
    [k - 1] on, each the mean of a window of the gain (loss) series that
    starts with the zero [where] puts in place of the missing [delta[0]]. *)
Theorem rsi_warmup (data : DataFrame) (close : Series) (k : nat) :
  (0 < k)%nat →
  getitem data "Close" = Ok close →
  ∃ data',
    add_rsi k data = Ok data' ∧
    getitem data' "RSI" = Ok (rsi k close) ∧
    length (rsi k close) = length close ∧
    (∀ i, (i < length close)%nat → (i < k - 1)%nat →
       rsi_gain k close !! i = Some NaN ∧ rsi_loss k close !! i = Some NaN ∧
       rsi k close !! i = Some NaN) ∧
    (∀ i v, rsi k close !! i = Some v → v ≠ NaN →
       ∃ g l, rsi_gain k close !! i = Some g ∧ rsi_loss k close !! i = Some l ∧
         g ≠ NaN ∧ l ≠ NaN) ∧
    (∀ cs i, close = Num <$> cs → (i < length close)%nat → (k - 1 ≤ i)%nat →
       rsi_gain k close !! i
       = Some (Num (spec_mean (spec_window (raw_gains cs) k i))) ∧
       rsi_loss k close !! i
       = Some (Num (spec_mean (spec_window (raw_losses cs) k i)))).
Proof.
  intros Hk Hclose. unfold add_rsi. frame_run.
  eexists. split; [done|]. split; [by frame_run|].
  split; [apply length_rsi|]. split; [|split].
  - intros i Hi Hik. rewrite rsi_lookup.
    by rewrite rsi_gain_warmup, rsi_loss_warmup.
  - intros i v Hv Hdef. rewrite rsi_lookup in Hv.
    destruct (rsi_gain k close !! i) as [g|]; [|done].
    destruct (rsi_loss k close !! i) as [l|]; [|done].
    simpl in Hv. injection Hv as <-.
    exists g, l. split; [done|]. split; [done|]. by apply rsi_cell_defined.
  - intros cs i -> Hi Hki. rewrite length_fmap in Hi.
    by rewrite rsi_gain_finite, rsi_loss_finite.
Qed.

Lemma rsi_warmup_witness :
  ∃ data',
    add_rsi 2 bars3 = Ok data' ∧
    getitem data' "RSI" = Ok (rsi 2 [Num 10; Num 11; Num 12]) ∧
    length (rsi 2 [Num 10; Num 11; Num 12]) = 3%nat ∧
    (∀ i, (i < 3)%nat → (i < 2 - 1)%nat →
       rsi_gain 2 [Num 10; Num 11; Num 12] !! i = Some NaN ∧
       rsi_loss 2 [Num 10; Num 11; Num 12] !! i = Some NaN ∧
       rsi 2 [Num 10; Num 11; Num 12] !! i = Some NaN) ∧
    (∀ i v, rsi 2 [Num 10; Num 11; Num 12] !! i = Some v → v ≠ NaN →
       ∃ g l, rsi_gain 2 [Num 10; Num 11; Num 12] !! i = Some g ∧
         rsi_loss 2 [Num 10; Num 11; Num 12] !! i = Some l ∧
         g ≠ NaN ∧ l ≠ NaN) ∧
    (∀ cs i, [Num 10; Num 11; Num 12] = Num <$> cs → (i < 3)%nat → (2 - 1 ≤ i)%nat →
       rsi_gain 2 [Num 10; Num 11; Num 12] !! i
       = Some (Num (spec_mean (spec_window (raw_gains cs) 2 i))) ∧
       rsi_loss 2 [Num 10; Num 11; Num 12] !! i
       = Some (Num (spec_mean (spec_window (raw_losses cs) 2 i)))).
Proof.
  apply (rsi_warmup bars3 [Num 10; Num 11; Num 12] 2); [lia|reflexivity].
Defined.

(** *** Fourteen rising closes and fourteen flat ones, window 14 *)

Ltac Rmax_eval :=
  repeat first [ rewrite Rmax_left by lra | rewrite Rmax_right by lra ].

Lemma rising14_avg_gain :
  rsi_gain 14 (Num <$> rising14) !! 13%nat = Some (Num (13 / 14)).
Proof.
  rewrite rsi_gain_finite by (simpl; lia). do 2 f_equal.
  unfold spec_mean. cbn -[Rmax Rminus Rdiv INR]. Rmax_eval. simpl. lra.
Qed.

Lemma rising14_avg_loss :
  rsi_loss 14 (Num <$> rising14) !! 13%nat = Some (Num 0).
Proof.
  rewrite rsi_loss_finite by (simpl; lia). do 2 f_equal.
  unfold spec_mean. cbn -[Rmax Rminus Rdiv INR]. Rmax_eval. simpl. lra.
Qed.

Lemma flat14_avg_gain :
  rsi_gain 14 (Num <$> flat14) !! 13%nat = Some (Num 0).
Proof.
  rewrite rsi_gain_finite by (simpl; lia). do 2 f_equal.
  unfold spec_mean. cbn -[Rmax Rminus Rdiv INR]. Rmax_eval. simpl. lra.
Qed.

Lemma flat14_avg_loss :
  rsi_loss 14 (Num <$> flat14) !! 13%nat = Some (Num 0).
Proof.
  rewrite rsi_loss_finite by (simpl; lia). do 2 f_equal.
  unfold spec_mean. cbn -[Rmax Rminus Rdiv INR]. Rmax_eval. simpl. lra.
Qed.

Lemma rising14_rsi : rsi 14 (Num <$> rising14) !! 13%nat = Some (Num 100).
Proof.
  rewrite rsi_lookup, rising14_avg_gain, rising14_avg_loss.
  cbn [mbind option_bind]. f_equal. apply rsi_cell_zero_loss. lra.
Qed.

Lemma rising14_rs :
  ∃ rs, rsi_rs 14 (Num <$> rising14) !! 13%nat = Some rs ∧ infinite rs.
Proof.
  rewrite rsi_rs_lookup, rising14_avg_gain, rising14_avg_loss.
  cbn [mbind option_bind]. eexists. split; [done|].
  apply rsi_cell_zero_loss. lra.
Qed.

Lemma bars_close idx cs : getitem (bars idx cs) "Close" = Ok (Num <$> cs).
Proof. done. Qed.

(** C1, as stated, fails: with the window 14 of the dashboard and fourteen
    rising closes, position 13 is one of the first 14 positions, yet both
    averages and the RSI are numbers there. *)
Lemma rsi_defined_at_position_13 :
  ∃ data',
    add_rsi 14 (bars days14 rising14) = Ok data' ∧
    getitem data' "RSI" = Ok (rsi 14 (Num <$> rising14)) ∧
    rsi_gain 14 (Num <$> rising14) !! 13%nat = Some (Num (13 / 14)) ∧
    rsi_loss 14 (Num <$> rising14) !! 13%nat = Some (Num 0) ∧
    rsi 14 (Num <$> rising14) !! 13%nat = Some (Num 100).
Proof.
  pose proof (bars_close days14 rising14) as Hclose.
  unfold add_rsi. frame_run. eexists. split; [done|]. split; [by frame_run|].
  auto using rising14_avg_gain, rising14_avg_loss, rising14_rsi.
Qed.

(** C2 (as the code has it): where the average loss is 0 and the average
    gain is positive, the quotient [rs] is infinite (the division is
    carried out, with the zero divisor) and the RSI cell is 100. *)
Theorem rsi_zero_loss (data : DataFrame) (close : Series) (k i : nat) (g : R) :
  getitem data "Close" = Ok close →
  rsi_gain k close !! i = Some (Num g) →
  rsi_loss k close !! i = Some (Num 0) →
  0 < g →
  ∃ data' r rs,
    add_rsi k data = Ok data' ∧ getitem data' "RSI" = Ok r ∧
    rsi_rs k close !! i = Some rs ∧ infinite rs ∧
    r !! i = Some (Num 100).
Proof.
  intros Hclose Hgain Hloss Hg. unfold add_rsi. frame_run.
  eexists _, _, _. split; [done|]. split; [by frame_run|].
  rewrite rsi_rs_lookup, rsi_lookup, Hgain, Hloss. cbn [mbind option_bind].
  destruct (rsi_cell_zero_loss g) as [Hinf ->]; [lra|]. done.
Qed.

Lemma rsi_zero_loss_witness :
  ∃ data' r rs,
    add_rsi 14 (bars days14 rising14) = Ok data' ∧ getitem data' "RSI" = Ok r ∧
    rsi_rs 14 (Num <$> rising14) !! 13%nat = Some rs ∧ infinite rs ∧
    r !! 13%nat = Some (Num 100).
Proof.
  apply (rsi_zero_loss (bars days14 rising14) (Num <$> rising14) 14 13 (13 / 14)).
  - reflexivity.
  - apply rising14_avg_gain.
  - apply rising14_avg_loss.
  - lra.
Defined.

(** C2, as stated, fails: the division is not guarded.  On the rising
    closes the quotient is computed with the zero divisor and is infinite;
    on the flat closes it is [0/0], and both [rs] and the RSI are NaN. *)
Lemma rsi_division_unguarded :
  rsi_loss 14 (Num <$> rising14) !! 13%nat = Some (Num 0) ∧
  (∃ rs, rsi_rs 14 (Num <$> rising14) !! 13%nat = Some rs ∧ infinite rs) ∧
  rsi_loss 14 (Num <$> flat14) !! 13%nat = Some (Num 0) ∧
  rsi_rs 14 (Num <$> flat14) !! 13%nat = Some NaN ∧
  rsi 14 (Num <$> flat14) !! 13%nat = Some NaN.
Proof.
  split; [apply rising14_avg_loss|]. split; [apply rising14_rs|].
  split; [apply flat14_avg_loss|].
  rewrite rsi_rs_lookup, rsi_lookup, flat14_avg_gain, flat14_avg_loss.
  cbn [mbind option_bind]. destruct rsi_cell_zero_zero as [-> ->]. done.
Qed.

(** *** Rising closes *)

Lemma Rsum_zeros (w : list R) : Forall (λ x, x = 0) w → Rsum w = 0.
Proof. induction 1 as [|x w -> _ IH]; simpl; [done|]. rewrite IH. lra. Qed.

Lemma raw_losses_rising cs :
  strictly_increasing cs → Forall (λ x, x = 0) (raw_losses cs).
Proof.
  intros Hinc. destruct cs as [|c cs]; [constructor|].
  unfold raw_losses. constructor; [done|].
  apply Forall_fmap, Forall_lookup. intros j d Hd. simpl.
  unfold spec_delta in Hd. apply lookup_zip_with_Some in Hd as (b & a & -> & Hb & Ha).
  simpl in Hb. specialize (Hinc j a b Ha Hb).
  rewrite Rmax_right by lra. done.
Qed.

Lemma rsi_loss_rising k cs i :
  strictly_increasing cs → (0 < k)%nat → (i < length cs)%nat → (k - 1 ≤ i)%nat →
  rsi_loss k (Num <$> cs) !! i = Some (Num 0).
Proof.
  intros Hinc Hk Hi Hki. rewrite rsi_loss_finite by done. do 2 f_equal.
  unfold spec_mean. rewrite Rsum_zeros; [unfold Rdiv; lra|].
  unfold spec_window. by apply Forall_take, Forall_drop, raw_losses_rising.
Qed.

(** On a strictly increasing close, the RSI is 100 wherever it is defined. *)
Lemma rsi_rising k cs i v :
  strictly_increasing cs → (0 < k)%nat →
  rsi k (Num <$> cs) !! i = Some v → v ≠ NaN → v = Num 100.
Proof.
  intros Hinc Hk Hv Hdef.
  assert (i < length cs)%nat as Hi.
  { apply lookup_lt_Some in Hv. by rewrite length_rsi, length_fmap in Hv. }
  destruct (decide (i < k - 1)%nat) as [Hwarm|Hfull].
  { rewrite rsi_lookup, rsi_gain_warmup, rsi_loss_warmup in Hv
      by (by rewrite ?length_fmap). simpl in Hv. congruence. }
  rewrite rsi_lookup, rsi_gain_finite, rsi_loss_rising in Hv by (done || lia).
  cbn [mbind option_bind] in Hv. injection Hv as <-.
  set (g := spec_mean (spec_window (raw_gains cs) k i)) in *.
  destruct (decide (g = 0)) as [Hg|Hg].
  - rewrite Hg in Hdef. by destruct rsi_cell_zero_zero as [_ ?].
  - by apply rsi_cell_zero_loss.
Qed.

Lemma Rsum_pos (w : list R) j x :
  Forall (λ y, 0 <= y) w → w !! j = Some x → 0 < x → 0 < Rsum w.
Proof.
  intros Hw. revert j. induction Hw as [|y w Hy Hw IH]; intros j Hj Hx; [done|].
  assert (0 <= Rsum w) as Hsum.
  { clear -Hw. induction Hw as [|z w Hz _ IH]; simpl; lra. }
  destruct j as [|j]; simpl in *.
  - injection Hj as ->. lra.
  - specialize (IH j Hj Hx). lra.
Qed.

Lemma raw_gains_nonneg cs : Forall (λ y, 0 <= y) (raw_gains cs).
Proof.
  destruct cs as [|c cs]; [constructor|]. unfold raw_gains.
  constructor; [lra|]. apply Forall_fmap, Forall_forall. intros d _. simpl.
  apply Rmax_r.
Qed.

Lemma raw_gains_rising cs i :
  strictly_increasing cs → (1 ≤ i)%nat → (i < length cs)%nat →
  ∃ x, raw_gains cs !! i = Some x ∧ 0 < x.
Proof.
  intros Hinc Hi Hlen. destruct i as [|j]; [lia|].
  destruct cs as [|c cs]; [simpl in Hlen; lia|].
  destruct (lookup_lt_is_Some_2 (c :: cs) j) as [a Ha]; [lia|].
  destruct (lookup_lt_is_Some_2 (c :: cs) (S j)) as [b Hb]; [lia|].
  exists (b - a). pose proof (Hinc j a b Ha Hb).
  unfold raw_gains, spec_delta.
  change ((0 :: ((λ d, Rmax d 0) <$> zip_with Rminus (tail (c :: cs)) (c :: cs))) !! S j)
    with (((λ d, Rmax d 0) <$> zip_with Rminus cs (c :: cs)) !! j).
  rewrite list_lookup_fmap, lookup_zip_with. simpl in Hb.
  rewrite Hb, Ha. simpl. rewrite Rmax_left by lra. split; [done|lra].
Qed.

Lemma spec_window_last {A} (l : list A) k i :
  (0 < k)%nat → (k ≤ i + 1)%nat → spec_window l k i !! (k - 1)%nat = l !! i.
Proof.
  intros Hk Hki. unfold spec_window.
  rewrite lookup_take_lt by lia. rewrite lookup_drop. f_equal. lia.
Qed.

(** From position 1 on, and past the warm-up, it is defined. *)
Lemma rsi_rising_100 k cs i :
  strictly_increasing cs → (0 < k)%nat →
  (k - 1 ≤ i)%nat → (1 ≤ i)%nat → (i < length cs)%nat →
  rsi k (Num <$> cs) !! i = Some (Num 100).
Proof.
  intros Hinc Hk Hki Hi Hlen.
  rewrite rsi_lookup, rsi_gain_finite, rsi_loss_rising by (done || lia).
  cbn [mbind option_bind]. f_equal. apply rsi_cell_zero_loss.
  destruct (raw_gains_rising cs i Hinc Hi Hlen) as (x & Hx & Hpos).
  assert (0 < Rsum (spec_window (raw_gains cs) k i)) as Hsum.
  { apply (Rsum_pos _ (k - 1) x); [| |done].
    - unfold spec_window. apply Forall_take, Forall_drop, raw_gains_nonneg.
    - rewrite spec_window_last by lia. done. }
  unfold spec_mean. rewrite length_spec_window
    by (rewrite ?length_raw_gains; lia).
  assert (0 < INR k) by (apply lt_0_INR; lia).
  apply Rgt_not_eq. by apply Rdiv_lt_0_compat.
Qed.

(** ** The calculations as a whole *)

Ltac not_in_list :=
  let H := fresh in
  intros H; repeat (apply elem_of_cons in H as [H|H]; [discriminate H|]);
  by apply elem_of_nil in H.

Ltac in_list := repeat first [ apply list_elem_of_here | apply list_elem_of_further ].

Lemma frame_le_refl data : frame_le data data.
Proof. by repeat split. Qed.

Lemma frame_le_trans d1 d2 d3 : frame_le d1 d2 → frame_le d2 d3 → frame_le d1 d3.
Proof.
  intros (Hi1 & Hk1 & Hs1) (Hi2 & Hk2 & Hs2). repeat split.
  - congruence.
  - intros c Hc. by rewrite Hk2, Hk1.
  - auto.
Qed.

Lemma frame_le_setitem_some data name s c :
  is_Some (columns data !! c) → is_Some (columns (setitem data name s) !! c).
Proof.
  intros Hc. simpl. destruct (decide (name = c)) as [->|Hne].
  - rewrite lookup_insert_eq. eauto.
  - by rewrite lookup_insert_ne.
Qed.

Lemma frame_le_setitem data name s :
  name ∈ indicator_columns → frame_le data (setitem data name s).
Proof.
  intros Hname. repeat split; simpl.
  - intros c Hc. apply lookup_insert_ne. congruence.
  - intros c Hc. destruct (decide (name = c)) as [->|Hne].
    + rewrite lookup_insert_eq. eauto.
    + by rewrite lookup_insert_ne.
Qed.

Lemma frame_le_getitem data data' name s :
  frame_le data data' → name ∉ indicator_columns →
  getitem data name = Ok s → getitem data' name = Ok s.
Proof.
  intros (_ & Hk & _) Hname. unfold getitem. rewrite (Hk name Hname).
  done.
Qed.

Lemma has_setitem data name s : is_Some (columns (setitem data name s) !! name).
Proof. simpl. rewrite lookup_insert_eq. eauto. Qed.

Lemma has_setitem_mono data name s c :
  is_Some (columns data !! c) → is_Some (columns (setitem data name s) !! c).
Proof. intros Hc. by apply (frame_le_setitem_some data name s). Qed.

Ltac has_column := repeat first [ apply has_setitem | apply has_setitem_mono ].

Lemma getitem_is_Some data name : 
  is_Some (columns data !! name) → ∃ s, getitem data name = Ok s.
Proof. intros [s Hs]. exists s. unfold getitem. by rewrite Hs. Qed.

Lemma close_not_indicator : "Close" ∉ indicator_columns.
Proof. not_in_list. Qed.

Section blocks.
Context (close : Series).


Lemma add_sma_ok name window :
  name ∈ indicator_columns → block_ok close (add_sma name window) [name].
Proof.
  intros Hname data Hclose. unfold add_sma. frame_run.
  eexists. split; [done|]. split; [by apply frame_le_setitem|].
  repeat constructor. apply has_setitem.
Qed.

Lemma add_ema_ok name span :
  1 <= span → name ∈ indicator_columns → block_ok close (add_ema name span) [name].
Proof.
  intros Hspan Hname data Hclose. unfold add_ema. frame_run.
  rewrite ewm_mean_Ok by done. frame_run.
  eexists. split; [done|]. split; [by apply frame_le_setitem|].
  repeat constructor. apply has_setitem.
Qed.

Lemma add_bollinger_ok window m :
  block_ok close (add_bollinger window m) ["BB_Middle"; "BB_Upper"; "BB_Lower"].
Proof.
  intros data Hclose. unfold add_bollinger. frame_run.
  eexists. split; [done|]. split.
  - repeat (eapply frame_le_trans; [|apply frame_le_setitem; in_list]).
    apply frame_le_refl.
  - repeat constructor; has_column.
Qed.

Lemma add_rsi_ok window : block_ok close (add_rsi window) ["RSI"].
Proof.
  intros data Hclose. unfold add_rsi. frame_run.
  eexists. split; [done|]. split; [apply frame_le_setitem; in_list|].
  repeat constructor. apply has_setitem.
Qed.

Lemma add_macd_ok fast slow signal :
  1 <= fast → 1 <= slow → 1 <= signal →
  block_ok close (add_macd fast slow signal) ["MACD_12_26"; "MACD_Signal"].
Proof.
  intros Hf Hs Hg data Hclose. unfold add_macd.
  repeat first [ frame_step | rewrite ewm_mean_Ok by done ].
  eexists. split; [done|]. split.
  - repeat (eapply frame_le_trans; [|apply frame_le_setitem; in_list]).
    apply frame_le_refl.
  - repeat constructor; has_column.
Qed.

Lemma when_ok name indicators block cols data :
  block_ok close block cols →
  getitem data "Close" = Ok close →
  ∃ data', when name indicators block data = Ok data' ∧ frame_le data data' ∧
    getitem data' "Close" = Ok close ∧
    (name ∈ indicators → Forall (λ c, is_Some (columns data' !! c)) cols).
Proof.
  intros Hblock Hclose. unfold when. case_bool_decide as Hin.
  - destruct (Hblock data Hclose) as (data' & Hrun & Hle & Hcols).
    exists data'. split; [done|]. split; [done|].
    split; [|done]. eapply frame_le_getitem; eauto using close_not_indicator.
  - exists data. split; [done|]. split; [apply frame_le_refl|]. done.
Qed.
End blocks.

Lemma frame_le_some d d' c :
  frame_le d d' → is_Some (columns d !! c) → is_Some (columns d' !! c).
Proof. intros (_ & _ & Hs). apply Hs. Qed.

(** With a close column to read, the calculations return; the frame they
    return extends the one they got and has the columns of every selected
    indicator. *)
Lemma calculations_total indicators data close :
  getitem data "Close" = Ok close →
  ∃ data', calculations indicators data = Ok data' ∧ frame_le data data' ∧
    ∀ name col, (name, col) ∈ indicator_outputs → name ∈ indicators →
      is_Some (columns data' !! col).
Proof.
  intros Hclose. unfold calculations.
  destruct (when_ok close "SMA 20" indicators (add_sma "SMA_20" 20) ["SMA_20"] data)
    as (d1 & -> & Hle1 & Hc1 & Hcols1); [apply add_sma_ok; in_list|done|].
  rewrite bind_Ok.
  destruct (when_ok close "SMA 50" indicators (add_sma "SMA_50" 50) ["SMA_50"] d1)
    as (d2 & -> & Hle2 & Hc2 & Hcols2); [apply add_sma_ok; in_list|done|].
  rewrite bind_Ok.
  destruct (when_ok close "EMA 20" indicators (add_ema "EMA_20" 20) ["EMA_20"] d2)
    as (d3 & -> & Hle3 & Hc3 & Hcols3); [apply add_ema_ok; [lra|in_list]|done|].
  rewrite bind_Ok.
  destruct (when_ok close "Bollinger Bands" indicators (add_bollinger 20 2)
              ["BB_Middle"; "BB_Upper"; "BB_Lower"] d3)
    as (d4 & -> & Hle4 & Hc4 & Hcols4); [apply add_bollinger_ok|done|].
  rewrite bind_Ok.
  destruct (when_ok close "RSI" indicators (add_rsi 14) ["RSI"] d4)
    as (d5 & -> & Hle5 & Hc5 & Hcols5); [apply add_rsi_ok|done|].
  rewrite bind_Ok.
  destruct (when_ok close "MACD" indicators (add_macd 12 26 9)
              ["MACD_12_26"; "MACD_Signal"] d5)
    as (d6 & -> & Hle6 & Hc6 & Hcols6); [apply add_macd_ok; lra|done|].
  exists d6. split; [done|]. split.
  { eauto 10 using frame_le_trans. }
  intros name col Hpair Hin. unfold indicator_outputs in Hpair.
  repeat (apply elem_of_cons in Hpair as [[= -> ->]|Hpair]; 
          [repeat match goal with
                  | H : ?n ∈ indicators → _ |- _ => specialize (H Hin)
                  | H : Forall _ (_ :: _) |- _ => apply Forall_cons in H as [? ?]
                  end;
           eauto 10 using frame_le_some|]).
  by apply elem_of_nil in Hpair.
Qed.

(** ** Metrics row and charts *)

Lemma iloc_back_Ok (s : Series) k :
  (1 ≤ k)%nat → (k ≤ length s)%nat → ∃ v, iloc_back s k = Ok v.
Proof.
  intros Hk Hlen. unfold iloc_back. rewrite decide_True by done.
  destruct (lookup_lt_is_Some_2 s (length s - k)) as [v ->]; [lia|]. eauto.
Qed.

Lemma metrics_row_total data close vol hi lo :
  getitem data "Close" = Ok close → getitem data "Volume" = Ok vol →
  getitem data "High" = Ok hi → getitem data "Low" = Ok lo →
  (2 ≤ length close)%nat → vol ≠ [] → hi ≠ [] → lo ≠ [] →
  ∃ m, metrics_row data = Ok m.
Proof.
  intros Hclose Hvol Hhi Hlo Hlen Hv Hh Hl. unfold metrics_row.
  destruct (iloc_back_Ok close 1) as [c1 Hc1]; [lia..|].
  destruct (iloc_back_Ok close 2) as [c2 Hc2]; [lia..|].
  destruct (iloc_back_Ok vol 1) as [v1 Hv1]; [lia|destruct vol; simpl; [done|lia]|].
  destruct (iloc_back_Ok hi 1) as [h1 Hh1]; [lia|destruct hi; simpl; [done|lia]|].
  destruct (iloc_back_Ok lo 1) as [l1 Hl1]; [lia|destruct lo; simpl; [done|lia]|].
  frame_run. rewrite Hc1. frame_run. rewrite Hc2. frame_run.
  rewrite Hv1. frame_run. rewrite Hh1. frame_run. rewrite Hl1. frame_run.
  eauto.
Qed.

Lemma scatter_when_total name indicators column label data :
  (name ∈ indicators → is_Some (columns data !! column)) →
  ∃ t, scatter_when name indicators column label data = Ok t.
Proof.
  intros Hcol. unfold scatter_when. case_bool_decide as Hin; [|eauto].
  destruct (getitem_is_Some data column (Hcol Hin)) as [s ->]. eauto.
Qed.

Lemma charts_total indicators data o h l c :
  getitem data "Open" = Ok o → getitem data "High" = Ok h →
  getitem data "Low" = Ok l → getitem data "Close" = Ok c →
  (∀ name col, (name, col) ∈ indicator_outputs → name ∈ indicators →
     is_Some (columns data !! col)) →
  ∃ fig, charts indicators data = Ok fig.
Proof.
  intros Ho Hh Hl Hc Hcols. unfold charts. frame_run.
  repeat match goal with
  | |- context [scatter_when ?n indicators ?col ?lab data] =>
      let t := fresh "t" in
      destruct (scatter_when_total n indicators col lab data) as [t ->];
      [apply Hcols; unfold indicator_outputs; in_list|rewrite bind_Ok]
  end.
  eauto.
Qed.

(** ** Whole runs *)

(** A frame with the five downloaded columns and at least two rows is
    rendered, with the columns of every selected indicator. *)
Lemma dashboard_renders data indicators o h l c v :
  index data ≠ [] →
  getitem data "Open" = Ok o → getitem data "High" = Ok h →
  getitem data "Low" = Ok l → getitem data "Close" = Ok c →
  getitem data "Volume" = Ok v →
  (2 ≤ length c)%nat → h ≠ [] → l ≠ [] → v ≠ [] →
  ∃ m data' fig,
    dashboard (Some data) indicators = Rendered m data' fig ∧
    frame_le data data' ∧
    ∀ name col, (name, col) ∈ indicator_outputs → name ∈ indicators →
      is_Some (columns data' !! col).
Proof.
  intros Hidx Ho Hh Hl Hc Hv Hlen Hhne Hlne Hvne. unfold dashboard.
  assert (empty data = false) as ->.
  { unfold empty. rewrite bool_decide_eq_false_2 by done.
    apply bool_decide_eq_false_2. intros Hcols. unfold getitem in Hc.
    rewrite Hcols, lookup_empty in Hc. done. }
  destruct (metrics_row_total data c v h l) as [m ->]; try done.
  destruct (calculations_total indicators data c Hc) as (data' & -> & Hle & Hcols).
  destruct (charts_total indicators data' o h l c) as [fig ->];
    try (eapply frame_le_getitem; [done|not_in_list|done]); [done|].
  eauto 10.
Qed.

(** What a run that renders leaves of the frame it was given. *)
Lemma dashboard_frame_le data indicators m data' fig :
  dashboard (Some data) indicators = Rendered m data' fig → frame_le data data'.
Proof.
  unfold dashboard. destruct (empty data); [done|].
  destruct (metrics_row data) as [m0|e] eqn:Hm; [|done].
  destruct (getitem data "Close") as [close|e] eqn:Hclose.
  - destruct (calculations_total indicators data close Hclose)
      as (d & -> & Hle & _).
    destruct (charts indicators d); [|done]. by intros [= _ <- _].
  - unfold metrics_row in Hm. by rewrite Hclose in Hm.
Qed.

(** C9: a run leaves the row labels and the open, high, low, close and
    volume columns of the frame as they were; it only assigns the
    indicator columns. *)
Theorem indicators_keep_prices (data : DataFrame) (indicators : list string)
    (m : metrics) (data' : DataFrame) (fig : list trace) :
  dashboard (Some data) indicators = Rendered m data' fig →
  index data' = index data ∧
  (∀ c, c ∈ price_columns → columns data' !! c = columns data !! c) ∧
  (∀ c, c ∉ indicator_columns → columns data' !! c = columns data !! c).
Proof.
  intros Hrun. destruct (dashboard_frame_le _ _ _ _ _ Hrun) as (Hidx & Hkeep & _).
  split; [done|]. split; [|done].
  intros c Hc. apply Hkeep. unfold price_columns in Hc.
  repeat (apply elem_of_cons in Hc as [->|Hc]; [not_in_list|]).
  by apply elem_of_nil in Hc.
Qed.

Lemma indicators_keep_prices_witness :
  ∃ m data' fig,
    dashboard (Some bars3) ["SMA 20"; "Bollinger Bands"] = Rendered m data' fig ∧
    index data' = index bars3 ∧
    (∀ c, c ∈ price_columns → columns data' !! c = columns bars3 !! c) ∧
    (∀ c, c ∉ indicator_columns → columns data' !! c = columns bars3 !! c).
Proof.
  eexists _, _, _. split; [reflexivity|].
  eapply (indicators_keep_prices bars3 ["SMA 20"; "Bollinger Bands"]).
  reflexivity.
Defined.

(** C8 (as the code has it): the script validates neither timestamps nor
    cells.  Its only gate is [data is not None and not data.empty]; a
    frame with the five downloaded columns and at least two rows is
    rendered, with the columns of every selected indicator, whatever its
    row labels and whatever its cells. *)
Theorem no_series_validation (data : DataFrame) (indicators : list string)
    (o h l c v : Series) :
  index data ≠ [] →
  getitem data "Open" = Ok o → getitem data "High" = Ok h →
  getitem data "Low" = Ok l → getitem data "Close" = Ok c →
  getitem data "Volume" = Ok v →
  (2 ≤ length c)%nat → h ≠ [] → l ≠ [] → v ≠ [] →
  ∃ m data' fig,
    dashboard (Some data) indicators = Rendered m data' fig ∧
    ∀ name col, (name, col) ∈ indicator_outputs → name ∈ indicators →
      is_Some (columns data' !! col).
Proof.
  intros Hidx Ho Hh Hl Hc Hv Hlen Hhne Hlne Hvne.
  destruct (dashboard_renders data indicators o h l c v)
    as (m & data' & fig & Hrun & _ & Hcols); try done.
  eauto.
Qed.

Lemma no_series_validation_witness :
  ∃ m data' fig,
    dashboard (Some malformed) ["SMA 20"; "EMA 20"; "RSI"] = Rendered m data' fig ∧
    ∀ name col, (name, col) ∈ indicator_outputs →
      name ∈ ["SMA 20"; "EMA 20"; "RSI"] →
      is_Some (columns data' !! col).
Proof.
  apply (no_series_validation malformed ["SMA 20"; "EMA 20"; "RSI"]
           [Num 10; Num 11; Num 12; Num 13; Num 14]
           [Num 10; Num 11; Num 12; Num 13; Num 14]
           [Num 10; Num 11; Num 12; Num 13; Num 14]
           [Num 10; NaN; Num 12; Num 13; Num 14]
           [Num 1; Num 1; PInf; Num 1; Num 1]);
    first [ reflexivity | done | simpl; lia ].
Defined.

Lemma dashboard_inv data indicators m data' fig :
  dashboard (Some data) indicators = Rendered m data' fig →
  metrics_row data = Ok m ∧ calculations indicators data = Ok data' ∧
  charts indicators data' = Ok fig.
Proof.
  unfold dashboard. destruct (empty data); [done|].
  destruct (metrics_row data); [|done].
  destruct (calculations indicators data) as [d|]; [|done].
  destruct (charts indicators d) eqn:Hc; [|done]. by intros [= -> -> ->].
Qed.

Ltac pick_blocks :=
  repeat match goal with
  | |- context [bool_decide (?n ∈ ?l)] =>
      first [ rewrite (bool_decide_eq_true_2 (n ∈ l)) by in_list
            | rewrite (bool_decide_eq_false_2 (n ∈ l)) by not_in_list ]
  end.

Lemma malformed_calculations :
  ∃ ema,
    calculations ["EMA 20"] malformed = Ok (setitem malformed "EMA_20" ema) ∧
    ema !! 0%nat = Some (Num 10) ∧ ema !! 1%nat = Some (Num 10).
Proof.
  unfold calculations, when. pick_blocks. unfold add_ema.
  pose proof (eq_refl : getitem malformed "Close"
                        = Ok [Num 10; NaN; Num 12; Num 13; Num 14]) as Hclose.
  frame_run. rewrite ewm_mean_Ok by lra. frame_run.
  eexists. split; [reflexivity|]. split; cbn; reflexivity.
Qed.

(** C8, as stated, fails: the frame [malformed] has a duplicated timestamp,
    timestamps that go backwards, a NaN close and an infinite volume; the
    run is not rejected, and the EMA column is computed (the NaN close is
    skipped over). *)
Lemma malformed_is_rendered :
  ∃ m data' fig ema,
    dashboard (Some malformed) ["EMA 20"] = Rendered m data' fig ∧
    getitem data' "EMA_20" = Ok ema ∧
    ema !! 0%nat = Some (Num 10) ∧ ema !! 1%nat = Some (Num 10).
Proof.
  destruct (dashboard_renders malformed ["EMA 20"]
              [Num 10; Num 11; Num 12; Num 13; Num 14]
              [Num 10; Num 11; Num 12; Num 13; Num 14]
              [Num 10; Num 11; Num 12; Num 13; Num 14]
              [Num 10; NaN; Num 12; Num 13; Num 14]
              [Num 1; Num 1; PInf; Num 1; Num 1])
    as (m & data' & fig & Hrun & _);
    [first [ reflexivity | done | simpl; lia ]..|].
  destruct malformed_calculations as (ema & Hcalc & H0 & H1).
  exists m, data', fig, ema. split; [done|].
  apply dashboard_inv in Hrun as (_ & Hcalc' & _).
  rewrite Hcalc in Hcalc'. injection Hcalc' as <-.
  split; [apply getitem_setitem|done].
Qed.

(** * The rest of the script *)

(** ** The calculations, column by column *)

Lemma ewm_mean_cells span s : 1 <= span → ewm_mean span s = Ok (ewm_cells span s).
Proof. apply ewm_mean_Ok. Qed.

Lemma columns_setitem data name s c :
  columns (setitem data name s) !! c
  = if bool_decide (c = name) then Some s else columns data !! c.
Proof.
  simpl. rewrite lookup_insert. case_decide; case_bool_decide; congruence.
Qed.

Lemma if_same {A} (b : bool) (x : A) : (if b then x else x) = x.
Proof. by destruct b. Qed.

Ltac block_writes_tac :=
  eexists; split; [done|]; split; [done|];
  intros c; rewrite ?columns_setitem; cbn [assigned];
  repeat case_bool_decide; subst; done.

Lemma add_sma_writes close name window :
  block_writes close (add_sma name window) [(name, rolling_mean window close)].
Proof. intros data Hclose. unfold add_sma. frame_run. block_writes_tac. Qed.

Lemma add_ema_writes close name span :
  1 <= span →
  block_writes close (add_ema name span) [(name, ewm_cells span close)].
Proof.
  intros Hspan data Hclose. unfold add_ema. frame_run.
  rewrite ewm_mean_cells by done. frame_run. block_writes_tac.
Qed.

Lemma add_bollinger_writes close window m :
  block_writes close (add_bollinger window m)
    [("BB_Middle", rolling_mean window close);
     ("BB_Upper", series_add (rolling_mean window close)
                    (scalar_mul (Num m) (rolling_std window close)));
     ("BB_Lower", series_sub (rolling_mean window close)
                    (scalar_mul (Num m) (rolling_std window close)))].
Proof. intros data Hclose. unfold add_bollinger. frame_run. block_writes_tac. Qed.

Lemma add_rsi_writes close window :
  block_writes close (add_rsi window) [("RSI", rsi window close)].
Proof. intros data Hclose. unfold add_rsi. frame_run. block_writes_tac. Qed.

Lemma add_macd_writes close fast slow signal :
  1 <= fast → 1 <= slow → 1 <= signal →
  block_writes close (add_macd fast slow signal)
    [("MACD_12_26", series_sub (ewm_cells fast close) (ewm_cells slow close));
     ("MACD_Signal",
      ewm_cells signal (series_sub (ewm_cells fast close) (ewm_cells slow close)))].
Proof.
  intros Hf Hs Hg data Hclose. unfold add_macd.
  repeat first [ frame_step | rewrite ewm_mean_cells by done ].
  block_writes_tac.
Qed.

(** Decide the string equalities of a goal about one column. *)
Ltac string_eqs :=
  cbn [assigned];
  repeat match goal with
  | |- context [bool_decide (@eq string ?a ?b)] =>
      first [ rewrite (bool_decide_eq_true_2 (a = b)) by done
            | rewrite (bool_decide_eq_false_2 (a = b)) by (done || discriminate) ]
  end;
  rewrite ?if_same.

Ltac column_tac :=
  repeat match goal with
  | H : ∀ c, columns ?d !! c = _ |- context [columns ?d !! _] =>
      rewrite H; string_eqs
  end;
  unfold expected_column, indicator_formula; string_eqs.

Lemma when_writes close name indicators block writes data :
  block_writes close block writes →
  assigned writes "Close" = None →
  getitem data "Close" = Ok close →
  ∃ data', when name indicators block data = Ok data' ∧
    index data' = index data ∧ getitem data' "Close" = Ok close ∧
    ∀ c, columns data' !! c
         = if bool_decide (name ∈ indicators) then
             match assigned writes c with
             | Some v => Some v
             | None => columns data !! c
             end
           else columns data !! c.
Proof.
  intros Hblock Hw Hclose. unfold when. case_bool_decide as Hin.
  - destruct (Hblock data Hclose) as (data' & Hrun & Hidx & Hcols).
    exists data'. split; [done|]. split; [done|]. split; [|done].
    unfold getitem in *. by rewrite Hcols, Hw.
  - exists data. done.
Qed.

(** The frame the calculations return, column by column. *)
Lemma calculations_columns indicators data close :
  getitem data "Close" = Ok close →
  ∃ data', calculations indicators data = Ok data' ∧
    index data' = index data ∧
    ∀ col, columns data' !! col = expected_column indicators data close col.
Proof.
  intros Hclose. unfold calculations.
  destruct (when_writes close "SMA 20" indicators _ _ data
              (add_sma_writes close "SMA_20" 20) eq_refl Hclose)
    as (d1 & -> & Hi1 & Hc1 & H1). rewrite bind_Ok.
  destruct (when_writes close "SMA 50" indicators _ _ d1
              (add_sma_writes close "SMA_50" 50) eq_refl Hc1)
    as (d2 & -> & Hi2 & Hc2 & H2). rewrite bind_Ok.
  destruct (when_writes close "EMA 20" indicators _ _ d2
              (add_ema_writes close "EMA_20" 20 ltac:(lra)) eq_refl Hc2)
    as (d3 & -> & Hi3 & Hc3 & H3). rewrite bind_Ok.
  destruct (when_writes close "Bollinger Bands" indicators _ _ d3
              (add_bollinger_writes close 20 2) eq_refl Hc3)
    as (d4 & -> & Hi4 & Hc4 & H4). rewrite bind_Ok.
  destruct (when_writes close "RSI" indicators _ _ d4
              (add_rsi_writes close 14) eq_refl Hc4)
    as (d5 & -> & Hi5 & Hc5 & H5). rewrite bind_Ok.
  destruct (when_writes close "MACD" indicators _ _ d5
              (add_macd_writes close 12 26 9 ltac:(lra) ltac:(lra) ltac:(lra))
              eq_refl Hc5)
    as (d6 & -> & Hi6 & Hc6 & H6).
  exists d6. split; [done|]. split; [congruence|].
  intros col.
  destruct (decide (col = "SMA_20")) as [->|?]; [by column_tac|].
  destruct (decide (col = "SMA_50")) as [->|?]; [by column_tac|].
  destruct (decide (col = "EMA_20")) as [->|?]; [by column_tac|].
  destruct (decide (col = "BB_Middle")) as [->|?]; [by column_tac|].
  destruct (decide (col = "BB_Upper")) as [->|?]; [by column_tac|].
  destruct (decide (col = "BB_Lower")) as [->|?]; [by column_tac|].
  destruct (decide (col = "RSI")) as [->|?]; [by column_tac|].
  destruct (decide (col = "MACD_12_26")) as [->|?]; [by column_tac|].
  destruct (decide (col = "MACD_Signal")) as [->|?]; [by column_tac|].
  by column_tac.
Qed.

(** X1: on a frame with a close column the calculations do not raise;
    they keep the index, give every column of a selected indicator the
    value of that indicator's formula on the input close column, and leave
    every other column as it was.  An indicator's values therefore do not
    depend on which other indicators are selected. *)
Theorem calculations_by_column (indicators : list string) (data : DataFrame)
    (close : Series) :
  getitem data "Close" = Ok close →
  ∃ data', calculations indicators data = Ok data' ∧
    index data' = index data ∧
    ∀ col, columns data' !! col = expected_column indicators data close col.
Proof. apply calculations_columns. Qed.

Lemma calculations_by_column_witness :
  ∃ data', calculations ["RSI"; "SMA 20"] bars3 = Ok data' ∧
    index data' = index bars3 ∧
    ∀ col, columns data' !! col
           = expected_column ["RSI"; "SMA 20"] bars3 [Num 10; Num 11; Num 12] col.
Proof.
  apply (calculations_by_column ["RSI"; "SMA 20"] bars3 [Num 10; Num 11; Num 12]).
  reflexivity.
Defined.

Lemma frame_eq (d d' : DataFrame) :
  index d = index d' → (∀ c, columns d !! c = columns d' !! c) → d = d'.
Proof.
  destruct d as [i m], d' as [i' m']. simpl. intros -> Hm. f_equal.
  by apply map_eq.
Qed.

Lemma when_no_close name indicators block data e data' :
  (∀ d, getitem d "Close" = Raise e → block d = Raise e) →
  getitem data "Close" = Raise e →
  when name indicators block data = Ok data' → data' = data.
Proof.
  intros Hblock Hclose. unfold when. case_bool_decide.
  - by rewrite Hblock.
  - by intros [= <-].
Qed.

(** Every block starts by reading the close column. *)
Lemma blocks_need_close d e :
  getitem d "Close" = Raise e →
  (∀ name w, add_sma name w d = Raise e) ∧
  (∀ name span, add_ema name span d = Raise e) ∧
  (∀ w m, add_bollinger w m d = Raise e) ∧
  (∀ w, add_rsi w d = Raise e) ∧
  (∀ f s g, add_macd f s g d = Raise e).
Proof.
  intros Hd. unfold add_sma, add_ema, add_bollinger, add_rsi, add_macd.
  rewrite Hd. done.
Qed.

(** Without a close column the calculations return only when no block
    runs, and then with the frame they got. *)
Lemma calculations_no_close indicators data e data' :
  getitem data "Close" = Raise e →
  calculations indicators data = Ok data' → data' = data.
Proof.
  intros Hclose. unfold calculations.
  destruct (when "SMA 20" _ _ data) as [d1|] eqn:H1; [|done].
  apply (when_no_close _ _ _ _ e) in H1 as ->;
    [|intros; by apply blocks_need_close|done]. rewrite bind_Ok.
  destruct (when "SMA 50" _ _ data) as [d2|] eqn:H2; [|done].
  apply (when_no_close _ _ _ _ e) in H2 as ->;
    [|intros; by apply blocks_need_close|done]. rewrite bind_Ok.
  destruct (when "EMA 20" _ _ data) as [d3|] eqn:H3; [|done].
  apply (when_no_close _ _ _ _ e) in H3 as ->;
    [|intros; by apply blocks_need_close|done]. rewrite bind_Ok.
  destruct (when "Bollinger Bands" _ _ data) as [d4|] eqn:H4; [|done].
  apply (when_no_close _ _ _ _ e) in H4 as ->;
    [|intros; by apply blocks_need_close|done]. rewrite bind_Ok.
  destruct (when "RSI" _ _ data) as [d5|] eqn:H5; [|done].
  apply (when_no_close _ _ _ _ e) in H5 as ->;
    [|intros; by apply blocks_need_close|done]. rewrite bind_Ok.
  intros H6. apply (when_no_close _ _ _ _ e) in H6 as ->;
    [done|intros; by apply blocks_need_close|done].
Qed.

(** A column that is not an indicator column is left alone. *)
Lemma expected_column_other indicators data close col :
  col ∉ indicator_columns →
  expected_column indicators data close col = columns data !! col.
Proof.
  intros Hcol. unfold expected_column, indicator_formula.
  assert (∀ k, k ∈ indicator_columns → bool_decide (col = k) = false) as Hk.
  { intros k Hin. apply bool_decide_eq_false_2. by intros ->. }
  by rewrite !Hk by (unfold indicator_columns; in_list).
Qed.

(** X2: the calculations are idempotent: run on the frame they returned,
    with the same selection, they return that frame. *)
Theorem calculations_idempotent (indicators : list string) (data data' : DataFrame) :
  calculations indicators data = Ok data' →
  calculations indicators data' = Ok data'.
Proof.
  intros Hrun. destruct (getitem data "Close") as [close|e] eqn:Hclose.
  - destruct (calculations_columns indicators data close Hclose)
      as (d1 & Hrun1 & Hidx1 & Hcols1).
    assert (d1 = data') as -> by congruence.
    assert (getitem data' "Close" = Ok close) as Hclose'.
    { unfold getitem in *.
      by rewrite Hcols1, expected_column_other by apply close_not_indicator. }
    destruct (calculations_columns indicators data' close Hclose')
      as (d2 & Hrun2 & Hidx2 & Hcols2).
    rewrite Hrun2. f_equal. apply frame_eq; [done|].
    intros c. rewrite Hcols2. unfold expected_column.
    destruct (indicator_formula close c) as [[name s]|] eqn:Hf; [|done].
    case_bool_decide as Hin; [|done].
    rewrite Hcols1. unfold expected_column. rewrite Hf.
    by rewrite bool_decide_eq_true_2.
  - pose proof (calculations_no_close _ _ _ _ Hclose Hrun) as ->. done.
Qed.

Lemma calculations_idempotent_witness :
  ∃ data', calculations ["EMA 20"; "MACD"] bars3 = Ok data' ∧
    calculations ["EMA 20"; "MACD"] data' = Ok data'.
Proof.
  destruct (calculations_columns ["EMA 20"; "MACD"] bars3 [Num 10; Num 11; Num 12])
    as (data' & Hrun & _); [reflexivity|].
  exists data'. split; [exact Hrun|].
  exact (calculations_idempotent ["EMA 20"; "MACD"] bars3 data' Hrun).
Defined.

(** X3: only the membership of the six indicator names in the selection
    matters: two selections that agree on them (whatever their order,
    repetitions or other entries) give the same run. *)
Theorem dashboard_selection (data : option DataFrame) (sel1 sel2 : list string) :
  (∀ name, name ∈ indicator_names → name ∈ sel1 ↔ name ∈ sel2) →
  dashboard data sel1 = dashboard data sel2.
Proof.
  intros Hsel.
  assert (∀ name, name ∈ indicator_names →
            bool_decide (name ∈ sel1) = bool_decide (name ∈ sel2)) as Hb.
  { intros name Hname. apply bool_decide_ext. auto. }
  unfold dashboard, calculations, charts, when, scatter_when.
  rewrite !(Hb "SMA 20"), !(Hb "SMA 50"), !(Hb "EMA 20"),
    !(Hb "Bollinger Bands"), !(Hb "RSI"), !(Hb "MACD")
    by (unfold indicator_names; in_list).
  done.
Qed.

Lemma dashboard_selection_witness :
  dashboard (Some bars3) ["RSI"; "SMA 20"; "RSI"; "Volume profile"]
  = dashboard (Some bars3) ["SMA 20"; "RSI"].
Proof.
  apply (dashboard_selection (Some bars3)).
  intros name Hname. unfold indicator_names in Hname.
  repeat (apply elem_of_cons in Hname as [->|Hname];
          [split; intros Hx;
           first [ solve [in_list] | exfalso; revert Hx; not_in_list ]|]).
  by apply elem_of_nil in Hname.
Defined.

(** ** Alignment *)

Lemma length_ewm_cells span s : length (ewm_cells span s) = length s.
Proof.
  unfold ewm_cells, prep_values. destruct s as [|x s]; simpl; [done|].
  by rewrite length_ewm_from, length_fmap.
Qed.

Lemma indicator_formula_length close col name s :
  indicator_formula close col = Some (name, s) → length s = length close.
Proof.
  unfold indicator_formula, rolling_mean, rolling_std.
  repeat case_bool_decide; intros [= <- <-];
    unfold series_add, series_sub, scalar_mul;
    rewrite ?length_zip_with, ?length_fmap, ?length_ewm_cells, ?length_rolling,
      ?length_rsi, ?length_zip_with, ?length_ewm_cells; lia.
Qed.

Lemma indicator_outputs_formula close name col :
  (name, col) ∈ indicator_outputs →
  ∃ s, indicator_formula close col = Some (name, s).
Proof.
  unfold indicator_outputs. intros Hin.
  repeat (apply elem_of_cons in Hin as [[= -> ->]|Hin];
          [unfold indicator_formula; string_eqs; eauto|]).
  by apply elem_of_nil in Hin.
Qed.

(** X4: every column of a selected indicator has exactly as many cells as
    the close column it was computed from. *)
Theorem indicator_columns_aligned (indicators : list string)
    (data data' : DataFrame) (close : Series) :
  getitem data "Close" = Ok close →
  calculations indicators data = Ok data' →
  ∀ name col, (name, col) ∈ indicator_outputs → name ∈ indicators →
    ∃ s, columns data' !! col = Some s ∧ length s = length close.
Proof.
  intros Hclose Hrun name col Hpair Hin.
  destruct (calculations_columns indicators data close Hclose)
    as (d & Hrun' & _ & Hcols).
  assert (d = data') as -> by congruence.
  destruct (indicator_outputs_formula close name col Hpair) as [s Hs].
  exists s. rewrite Hcols. unfold expected_column. rewrite Hs.
  rewrite bool_decide_eq_true_2 by done. split; [done|].
  by eapply indicator_formula_length.
Qed.

Lemma indicator_columns_aligned_witness :
  ∃ data',
    calculations ["Bollinger Bands"; "MACD"] bars3 = Ok data' ∧
    ∀ name col, (name, col) ∈ indicator_outputs →
      name ∈ ["Bollinger Bands"; "MACD"] →
      ∃ s, columns data' !! col = Some s
           ∧ length s = length [Num 10; Num 11; Num 12].
Proof.
  destruct (calculations_columns ["Bollinger Bands"; "MACD"] bars3
              [Num 10; Num 11; Num 12]) as (data' & Hrun & _); [reflexivity|].
  exists data'. split; [exact Hrun|].
  exact (indicator_columns_aligned ["Bollinger Bands"; "MACD"] bars3 data'
           [Num 10; Num 11; Num 12] eq_refl Hrun).
Defined.

(** ** What a run can raise, and when it renders *)

Lemma getitem_Raise data name e : getitem data name = Raise e → e = KeyError name.
Proof. unfold getitem. destruct (columns data !! name); by intros [= <-]. Qed.

Lemma iloc_back_Raise (s : Series) k e : iloc_back s k = Raise e → e = IndexError.
Proof.
  unfold iloc_back. case_decide; [destruct (s !! _)|]; by intros [= <-].
Qed.

Lemma iloc_back_Ok_inv (s : Series) k v :
  iloc_back s k = Ok v → (k ≤ length s)%nat.
Proof. unfold iloc_back. by case_decide. Qed.

Lemma bind_Ok_inv {A B} (r : result A) (f : A → result B) b :
  r ≫= f = Ok b → ∃ a, r = Ok a ∧ f a = Ok b.
Proof. destruct r as [a|e]; [eauto|done]. Qed.

Lemma bind_Raise_inv {A B} (r : result A) (f : A → result B) e :
  r ≫= f = Raise e → r = Raise e ∨ ∃ a, r = Ok a ∧ f a = Raise e.
Proof. destruct r as [a|e']; [eauto|]. intros [= <-]. by left. Qed.

(** The metrics row returns exactly on a frame with the four columns it
    reads, two closes and one cell in the other three. *)
Lemma metrics_row_Ok_inv data m :
  metrics_row data = Ok m →
  ∃ close vol hi lo,
    getitem data "Close" = Ok close ∧ getitem data "Volume" = Ok vol ∧
    getitem data "High" = Ok hi ∧ getitem data "Low" = Ok lo ∧
    (2 ≤ length close)%nat ∧ vol ≠ [] ∧ hi ≠ [] ∧ lo ≠ [].
Proof.
  unfold metrics_row. intros H.
  repeat match type of H with
  | _ ≫= _ = Ok _ =>
      let H' := fresh "Hstep" in
      apply bind_Ok_inv in H as (? & H' & H)
  end.
  repeat match goal with
  | H1 : getitem data ?n = Ok ?a, H2 : getitem data ?n = Ok ?b |- _ =>
      assert (a = b) as -> by congruence; clear H2
  end.
  repeat match goal with
  | H : iloc_back _ _ = Ok _ |- _ => apply iloc_back_Ok_inv in H
  end.
  eexists _, _, _, _. repeat (split; [done|]).
  repeat split; intros ->; simpl in *; lia.
Qed.

Lemma metrics_row_Raise data e :
  metrics_row data = Raise e →
  e = IndexError ∨ ∃ c, c ∈ price_columns ∧ e = KeyError c.
Proof.
  unfold metrics_row. intros H.
  repeat match type of H with
  | _ ≫= _ = Raise _ =>
      apply bind_Raise_inv in H as [H|(? & _ & H)]
  end;
  first [ apply iloc_back_Raise in H; by left
        | apply getitem_Raise in H; right; eexists; split; [|done];
          unfold price_columns; in_list
        | done ].
Qed.

Lemma charts_Raise indicators data e :
  (∀ name col, (name, col) ∈ indicator_outputs → name ∈ indicators →
     is_Some (columns data !! col)) →
  charts indicators data = Raise e →
  ∃ c, c ∈ price_columns ∧ e = KeyError c.
Proof.
  intros Hcols Hrun.
  destruct (getitem data "Open") as [o|e1] eqn:Ho; cycle 1.
  { unfold charts in Hrun. rewrite Ho in Hrun. injection Hrun as <-.
    apply getitem_Raise in Ho as ->. eexists. split; [|done].
    unfold price_columns; in_list. }
  destruct (getitem data "High") as [h|e1] eqn:Hh; cycle 1.
  { unfold charts in Hrun. rewrite Ho, Hh in Hrun. injection Hrun as <-.
    apply getitem_Raise in Hh as ->. eexists. split; [|done].
    unfold price_columns; in_list. }
  destruct (getitem data "Low") as [l|e1] eqn:Hl; cycle 1.
  { unfold charts in Hrun. rewrite Ho, Hh, Hl in Hrun. injection Hrun as <-.
    apply getitem_Raise in Hl as ->. eexists. split; [|done].
    unfold price_columns; in_list. }
  destruct (getitem data "Close") as [c|e1] eqn:Hc; cycle 1.
  { unfold charts in Hrun. rewrite Ho, Hh, Hl, Hc in Hrun. injection Hrun as <-.
    apply getitem_Raise in Hc as ->. eexists. split; [|done].
    unfold price_columns; in_list. }
  destruct (charts_total indicators data o h l c Ho Hh Hl Hc Hcols) as [fig Hfig].
  congruence.
Qed.

(** X5: the only exceptions a run lets through are the [IndexError] of the
    metrics row and a [KeyError] for one of the five downloaded columns;
    the indicator blocks and the span checks of [ewm] never raise. *)
Theorem dashboard_errors (data : option DataFrame) (indicators : list string)
    (e : error) :
  dashboard data indicators = Raised e →
  e = IndexError ∨ ∃ c, c ∈ price_columns ∧ e = KeyError c.
Proof.
  unfold dashboard. destruct data as [data|]; [|done].
  destruct (empty data); [done|].
  destruct (metrics_row data) as [m|e'] eqn:Hm; cycle 1.
  { intros [= <-]. by apply metrics_row_Raise in Hm. }
  destruct (metrics_row_Ok_inv data m Hm) as (close & _ & _ & _ & Hclose & _).
  destruct (calculations_total indicators data close Hclose)
    as (data' & -> & _ & Hcols).
  destruct (charts indicators data') as [fig|e'] eqn:Hc; [done|].
  intros [= <-]. right. by eapply charts_Raise.
Qed.

Lemma dashboard_errors_witness :
  IndexError = IndexError ∨ ∃ c, c ∈ price_columns ∧ IndexError = KeyError c.
Proof.
  apply (dashboard_errors (Some bars1) ["RSI"] IndexError). reflexivity.
Defined.

(** X6: a run renders exactly when the frame is not empty, has the five
    downloaded columns, at least two closes and at least one cell of
    volume, high and low. *)
Theorem dashboard_renders_iff (data : DataFrame) (indicators : list string) :
  (∃ m data' fig, dashboard (Some data) indicators = Rendered m data' fig)
  ↔ empty data = false ∧
    ∃ o h l c v,
      getitem data "Open" = Ok o ∧ getitem data "High" = Ok h ∧
      getitem data "Low" = Ok l ∧ getitem data "Close" = Ok c ∧
      getitem data "Volume" = Ok v ∧
      (2 ≤ length c)%nat ∧ h ≠ [] ∧ l ≠ [] ∧ v ≠ [].
Proof.
  split.
  - intros (m & data' & fig & Hrun).
    assert (empty data = false) as Hne.
    { unfold dashboard in Hrun. by destruct (empty data). }
    split; [done|].
    pose proof (dashboard_frame_le _ _ _ _ _ Hrun) as (_ & Hkeep & _).
    apply dashboard_inv in Hrun as (Hm & _ & Hfig).
    destruct (metrics_row_Ok_inv data m Hm)
      as (c & v & h & l & Hc & Hv & Hh & Hl & Hlen & Hvne & Hhne & Hlne).
    unfold charts in Hfig. apply bind_Ok_inv in Hfig as (o & Ho & _).
    exists o, h, l, c, v. repeat (split; [done|]). 
    repeat split; try done.
    unfold getitem in *. rewrite <- Hkeep; [done|not_in_list].
  - intros (Hne & o & h & l & c & v & Ho & Hh & Hl & Hc & Hv & Hlen & ? & ? & ?).
    destruct (dashboard_renders data indicators o h l c v)
      as (m & data' & fig & Hrun & _); try done; [|eauto].
    unfold empty in Hne. apply orb_false_iff in Hne as [Hidx _].
    by apply bool_decide_eq_false in Hidx.
Qed.

(** ** The metrics row *)

Lemma iloc_back_last (s : Series) x : iloc_back (s ++ [x]) 1 = Ok x.
Proof.
  unfold iloc_back. rewrite length_app. simpl.
  rewrite decide_True by lia.
  replace (length s + 1 - 1)%nat with (length s + 0)%nat by lia.
  by rewrite lookup_app_r, Nat.add_0_r, Nat.sub_diag by lia.
Qed.

Lemma iloc_back_second_last (s : Series) x y : iloc_back (s ++ [x; y]) 2 = Ok x.
Proof.
  unfold iloc_back. rewrite length_app. simpl.
  rewrite decide_True by lia.
  replace (length s + 2 - 2)%nat with (length s + 0)%nat by lia.
  by rewrite lookup_app_r, Nat.add_0_r, Nat.sub_diag by lia.
Qed.

Lemma iloc_back_last_of_two (s : Series) x y : iloc_back (s ++ [x; y]) 1 = Ok y.
Proof. change (s ++ [x; y]) with (s ++ [x] ++ [y]). by rewrite app_assoc, iloc_back_last. Qed.

(** X7: the metrics row shows the last close [q], the close before it [p],
    their difference, and the last volume, high and low.  The percentage is
    [(q - p) / p * 100] for [p <> 0]; a zero previous close raises nothing:
    the percentage is then NaN for [q = 0] and infinite otherwise. *)
Theorem metrics_row_values (data : DataFrame) (cs : list R) (p q : R)
    (vol hi lo : Series) (v h l : float) :
  getitem data "Close" = Ok (Num <$> (cs ++ [p; q])) →
  getitem data "Volume" = Ok (vol ++ [v]) →
  getitem data "High" = Ok (hi ++ [h]) →
  getitem data "Low" = Ok (lo ++ [l]) →
  ∃ m, metrics_row data = Ok m ∧
    last_close m = Num q ∧ prev_close m = Num p ∧ change m = Num (q - p) ∧
    volume m = v ∧ high m = h ∧ low m = l ∧
    (p ≠ 0 → pct_change m = Num ((q - p) / p * 100)) ∧
    (p = 0 → q = 0 → pct_change m = NaN) ∧
    (p = 0 → q ≠ 0 → infinite (pct_change m)).
Proof.
  intros Hc Hv Hh Hl. unfold metrics_row.
  rewrite fmap_app in Hc. change (Num <$> [p; q]) with [Num p; Num q] in Hc.
  rewrite Hc, bind_Ok, iloc_back_last_of_two, bind_Ok.
  rewrite bind_Ok, iloc_back_second_last, bind_Ok.
  rewrite Hv, bind_Ok, iloc_back_last, bind_Ok.
  rewrite Hh, bind_Ok, iloc_back_last, bind_Ok.
  rewrite Hl, bind_Ok, iloc_back_last, bind_Ok.
  eexists. split; [done|]. cbn [last_close prev_close change volume high low pct_change].
  repeat (split; [done|]). unfold fsub, fdiv, fopp, fadd, sign_inf, infinite.
  split; [|split].
  - intros Hp. by rewrite decide_False.
  - intros -> ->. rewrite decide_True by done.
    rewrite decide_False by lra. by rewrite decide_False by lra.
  - intros -> Hq. rewrite decide_True by done.
    destruct (decide (0 < q + - 0)).
    + left. simpl. unfold sign_inf. by rewrite decide_True by lra.
    + rewrite decide_True by lra. right. simpl. unfold sign_inf.
      rewrite decide_False by lra. by rewrite decide_True by lra.
Qed.

Lemma metrics_row_values_witness :
  ∃ m, metrics_row bars3 = Ok m ∧
    last_close m = Num 12 ∧ prev_close m = Num 11 ∧ change m = Num (12 - 11) ∧
    volume m = Num 1 ∧ high m = Num 12 ∧ low m = Num 12 ∧
    (11 ≠ 0 → pct_change m = Num ((12 - 11) / 11 * 100)) ∧
    (11 = 0 → 12 = 0 → pct_change m = NaN) ∧
    (11 = 0 → 12 ≠ 0 → infinite (pct_change m)).
Proof.
  apply (metrics_row_values bars3 [10] 11 12 [Num 1; Num 1] [Num 10; Num 11]
           [Num 10; Num 11] (Num 1) (Num 12) (Num 12)); reflexivity.
Defined.

(** ** Bounds of the exponential averages *)

Lemma ewm_alpha_range span : 1 <= span → 0 < ewm_alpha span <= 1.
Proof.
  intros Hspan. unfold ewm_alpha.
  assert (2 / (span + 1) * (span + 1) = 2) as Heq by (field; lra).
  split.
  - apply Rdiv_lt_0_compat; lra.
  - nra.
Qed.

Lemma spec_ewm_bounds alpha (cs : list R) lo hi i :
  0 < alpha <= 1 → Forall (λ x, lo <= x <= hi) cs → (i < length cs)%nat →
  lo <= spec_ewm alpha cs i <= hi.
Proof.
  intros Ha Hcs. induction i as [|i IH]; intros Hi.
  - destruct cs as [|c cs]; [simpl in Hi; lia|]. simpl.
    by apply Forall_cons in Hcs as [? _].
  - specialize (IH ltac:(lia)).
    destruct (lookup_lt_is_Some_2 cs (S i) Hi) as [x Hx].
    pose proof (proj1 (Forall_lookup _ _) Hcs _ _ Hx) as Hxb. simpl in Hxb.
    cbn [spec_ewm]. rewrite (nth_lookup_Some _ _ _ _ Hx). nra.
Qed.

Lemma spec_ewm_series_bounds alpha (cs : list R) lo hi :
  0 < alpha <= 1 → Forall (λ x, lo <= x <= hi) cs →
  Forall (λ x, lo <= x <= hi) (spec_ewm_series alpha cs).
Proof.
  intros Ha Hcs. apply Forall_lookup. intros i x Hx.
  assert (i < length cs)%nat as Hi.
  { apply lookup_lt_Some in Hx. by rewrite length_spec_ewm_series in Hx. }
  rewrite lookup_spec_ewm_series in Hx by done. injection Hx as <-.
  by apply spec_ewm_bounds.
Qed.

(** X8: on a finite close column, every cell of the EMA lies between the
    smallest and the largest close (between any two bounds of the closes). *)
Theorem ema_within_range (data : DataFrame) (name : string) (span : R)
    (cs : list R) (lo hi : R) :
  1 <= span →
  Forall (λ x, lo <= x <= hi) cs →
  getitem data "Close" = Ok (Num <$> cs) →
  ∃ data' ema,
    add_ema name span data = Ok data' ∧ getitem data' name = Ok ema ∧
    ∀ i v, ema !! i = Some v → ∃ x, v = Num x ∧ lo <= x <= hi.
Proof.
  intros Hspan Hcs Hclose. unfold add_ema. frame_run.
  rewrite ewm_mean_finite by done. frame_run.
  eexists _, _. split; [done|]. split; [by frame_run|].
  intros i v Hv. rewrite list_lookup_fmap in Hv.
  destruct (spec_ewm_series _ cs !! i) as [x|] eqn:Hx; [|done].
  injection Hv as <-. exists x. split; [done|].
  pose proof (spec_ewm_series_bounds (ewm_alpha span) cs lo hi
                (ewm_alpha_range span Hspan) Hcs) as Hall.
  apply (proj1 (Forall_lookup _ _) Hall _ _ Hx).
Qed.

Lemma ema_within_range_witness :
  ∃ data' ema,
    add_ema "EMA_20" 20 bars3 = Ok data' ∧ getitem data' "EMA_20" = Ok ema ∧
    ∀ i v, ema !! i = Some v → ∃ x, v = Num x ∧ 10 <= x <= 12.
Proof.
  apply (ema_within_range bars3 "EMA_20" 20 [10; 11; 12] 10 12);
    [lra| |reflexivity].
  repeat constructor; lra.
Defined.

(** ** MACD on a finite close *)

Lemma add_macd_finite data fast slow signal (cs : list R) :
  1 <= fast → 1 <= slow → 1 <= signal →
  getitem data "Close" = Ok (Num <$> cs) →
  ∃ data',
    add_macd fast slow signal data = Ok data' ∧
    getitem data' "MACD_12_26" = Ok (Num <$> spec_macd_line fast slow cs) ∧
    getitem data' "MACD_Signal"
    = Ok (Num <$> spec_ewm_series (ewm_alpha signal) (spec_macd_line fast slow cs)).
Proof.
  intros Hf Hs Hg Hclose. unfold add_macd.
  repeat first [ frame_step | rewrite ewm_mean_finite by done
               | rewrite series_sub_finite ].
  fold (spec_macd_line fast slow cs).
  repeat first [ frame_step | rewrite ewm_mean_finite by done ].
  eexists. split; [done|]. by frame_run.
Qed.

(** X9: on a finite, non-empty close column the MACD line and the signal
    line both start at 0: the two EMAs are seeded by the same first close. *)
Theorem macd_starts_at_zero (data : DataFrame) (fast slow signal : R)
    (cs : list R) :
  1 <= fast → 1 <= slow → 1 <= signal →
  cs ≠ [] →
  getitem data "Close" = Ok (Num <$> cs) →
  ∃ data' macd sig,
    add_macd fast slow signal data = Ok data' ∧
    getitem data' "MACD_12_26" = Ok macd ∧
    getitem data' "MACD_Signal" = Ok sig ∧
    macd !! 0%nat = Some (Num 0) ∧ sig !! 0%nat = Some (Num 0).
Proof.
  intros Hf Hs Hg Hne Hclose.
  destruct (add_macd_finite data fast slow signal cs Hf Hs Hg Hclose)
    as (data' & Hrun & Hmacd & Hsig).
  eexists _, _, _. repeat (split; [done|]).
  destruct cs as [|c cs]; [done|].
  assert (spec_macd_line fast slow (c :: cs) !! 0%nat = Some 0) as H0.
  { rewrite lookup_spec_macd_line by (simpl; lia). simpl. f_equal. lra. }
  rewrite !list_lookup_fmap, H0. split; [done|].
  destruct (spec_macd_line fast slow (c :: cs)) as [|m ms] eqn:Hline; [done|].
  injection H0 as ->. done.
Qed.

Lemma macd_starts_at_zero_witness :
  ∃ data' macd sig,
    add_macd 12 26 9 bars3 = Ok data' ∧
    getitem data' "MACD_12_26" = Ok macd ∧
    getitem data' "MACD_Signal" = Ok sig ∧
    macd !! 0%nat = Some (Num 0) ∧ sig !! 0%nat = Some (Num 0).
Proof.
  apply (macd_starts_at_zero bars3 12 26 9 [10; 11; 12]);
    [lra|lra|lra|done|reflexivity].
Defined.

(** X10: on a flat close column (every close equal to [c]) the MACD line
    and the signal line are 0 throughout. *)
Theorem macd_flat_is_zero (data : DataFrame) (fast slow signal : R)
    (cs : list R) (c : R) :
  1 <= fast → 1 <= slow → 1 <= signal →
  Forall (λ x, x = c) cs →
  getitem data "Close" = Ok (Num <$> cs) →
  ∃ data' macd sig,
    add_macd fast slow signal data = Ok data' ∧
    getitem data' "MACD_12_26" = Ok macd ∧
    getitem data' "MACD_Signal" = Ok sig ∧
    Forall (λ v, v = Num 0) macd ∧ Forall (λ v, v = Num 0) sig.
Proof.
  intros Hf Hs Hg Hflat Hclose.
  destruct (add_macd_finite data fast slow signal cs Hf Hs Hg Hclose)
    as (data' & Hrun & Hmacd & Hsig).
  eexists _, _, _. repeat (split; [done|]).
  assert (Forall (λ x, c <= x <= c) cs) as Hcs.
  { eapply Forall_impl; [done|]. intros x ->. simpl. lra. }
  assert (Forall (λ x, 0 <= x <= 0) (spec_macd_line fast slow cs)) as Hline.
  { apply Forall_lookup. intros i x Hx.
    assert (i < length cs)%nat as Hi.
    { apply lookup_lt_Some in Hx. by rewrite length_spec_macd_line in Hx. }
    rewrite lookup_spec_macd_line in Hx by done. injection Hx as <-.
    pose proof (spec_ewm_bounds (ewm_alpha fast) cs c c i
                  (ewm_alpha_range fast Hf) Hcs Hi).
    pose proof (spec_ewm_bounds (ewm_alpha slow) cs c c i
                  (ewm_alpha_range slow Hs) Hcs Hi).
    simpl. lra. }
  pose proof (spec_ewm_series_bounds (ewm_alpha signal) _ 0 0
                (ewm_alpha_range signal Hg) Hline) as Hsignal.
  split; apply Forall_fmap; (eapply Forall_impl; [done|]);
    intros x Hx; simpl in *; f_equal; lra.
Qed.

Lemma macd_flat_is_zero_witness :
  ∃ data' macd sig,
    add_macd 12 26 9 (bars days14 flat14) = Ok data' ∧
    getitem data' "MACD_12_26" = Ok macd ∧
    getitem data' "MACD_Signal" = Ok sig ∧
    Forall (λ v, v = Num 0) macd ∧ Forall (λ v, v = Num 0) sig.
Proof.
  apply (macd_flat_is_zero (bars days14 flat14) 12 26 9 flat14 5);
    [lra|lra|lra| |reflexivity].
  repeat constructor.
Defined.

(** ** Bounds of the windowed statistics *)

Lemma Rsum_bounds (w : list R) lo hi :
  Forall (λ x, lo <= x <= hi) w →
  INR (length w) * lo <= Rsum w <= INR (length w) * hi.
Proof.
  induction 1 as [|x w Hx _ IH].
  - simpl. lra.
  - cbn [length Rsum foldr]. rewrite S_INR. fold (Rsum w). lra.
Qed.

Lemma spec_mean_bounds (w : list R) lo hi :
  w ≠ [] → Forall (λ x, lo <= x <= hi) w → lo <= spec_mean w <= hi.
Proof.
  intros Hne Hw. pose proof (Rsum_bounds w lo hi Hw) as Hsum.
  assert (0 < INR (length w)) as Hn.
  { apply lt_0_INR. destruct w; [done|simpl; lia]. }
  unfold spec_mean, Rdiv.
  pose proof (Rinv_0_lt_compat _ Hn) as Hr.
  split.
  - replace lo with (INR (length w) * lo * / INR (length w)) by (field; lra).
    apply Rmult_le_compat_r; lra.
  - replace hi with (INR (length w) * hi * / INR (length w)) by (field; lra).
    apply Rmult_le_compat_r; lra.
Qed.

Lemma spec_mean_flat (w : list R) c :
  w ≠ [] → Forall (λ x, x = c) w → spec_mean w = c.
Proof.
  intros Hne Hw. assert (c <= spec_mean w <= c); [|lra].
  apply spec_mean_bounds; [done|].
  eapply Forall_impl; [done|]. intros x ->. simpl. lra.
Qed.

Lemma spec_sample_std_flat (w : list R) c :
  w ≠ [] → Forall (λ x, x = c) w → spec_sample_std w = 0.
Proof.
  intros Hne Hw. unfold spec_sample_std.
  rewrite (spec_mean_flat w c) by done.
  rewrite Rsum_zeros.
  - unfold Rdiv. rewrite Rmult_0_l. apply sqrt_0.
  - apply Forall_fmap. eapply Forall_impl; [done|]. intros x ->. simpl. lra.
Qed.

(** X11: a defined SMA cell lies between the smallest and the largest
    close of its window (between any two bounds of the window). *)
Theorem sma_within_window_range (data : DataFrame) (name : string)
    (close : Series) (k i : nat) (w : list R) (lo hi : R) :
  (0 < k)%nat → (i < length close)%nat → (k - 1 ≤ i)%nat →
  getitem data "Close" = Ok close →
  spec_window close k i = Num <$> w →
  Forall (λ x, lo <= x <= hi) w →
  ∃ data' sma x,
    add_sma name k data = Ok data' ∧ getitem data' name = Ok sma ∧
    sma !! i = Some (Num x) ∧ lo <= x <= hi.
Proof.
  intros Hk Hi Hki Hclose Hw Hb. unfold add_sma. frame_run.
  eexists _, _, _. split; [done|]. split; [by frame_run|].
  split; [by apply rolling_mean_full|].
  apply spec_mean_bounds; [|done].
  assert (length w = k) as Hlen.
  { rewrite <- (length_fmap Num w), <- Hw. apply length_spec_window; lia. }
  intros ->. simpl in Hlen. lia.
Qed.

Lemma sma_within_window_range_witness :
  ∃ data' sma x,
    add_sma "SMA_20" 2 bars3 = Ok data' ∧ getitem data' "SMA_20" = Ok sma ∧
    sma !! 2%nat = Some (Num x) ∧ 11 <= x <= 12.
Proof.
  apply (sma_within_window_range bars3 "SMA_20" [Num 10; Num 11; Num 12] 2 2
           [11; 12] 11 12); try (simpl; lia); try reflexivity.
  repeat constructor; lra.
Defined.

(** X12: where the closes of the window are all equal to [c], the standard
    deviation is 0 and the three Bollinger bands coincide at [c]. *)
Theorem bollinger_flat_window (data : DataFrame) (close : Series)
    (k i : nat) (m c : R) (w : list R) :
  (2 ≤ k)%nat → (i < length close)%nat → (k - 1 ≤ i)%nat →
  getitem data "Close" = Ok close →
  spec_window close k i = Num <$> w →
  Forall (λ x, x = c) w →
  ∃ data' middle upper lower,
    add_bollinger k m data = Ok data' ∧
    getitem data' "BB_Middle" = Ok middle ∧
    getitem data' "BB_Upper" = Ok upper ∧
    getitem data' "BB_Lower" = Ok lower ∧
    middle !! i = Some (Num c) ∧ upper !! i = Some (Num c) ∧
    lower !! i = Some (Num c).
Proof.
  intros Hk Hi Hki Hclose Hw Hflat.
  destruct (add_bollinger_columns data close k m Hclose)
    as (data' & Hrun & Hmid & Hup & Hlo).
  eexists data', _, _, _. repeat (split; [done|]).
  assert (w ≠ []) as Hne.
  { assert (length w = k) as Hlen.
    { rewrite <- (length_fmap Num w), <- Hw. apply length_spec_window; lia. }
    intros ->. simpl in Hlen. lia. }
  pose proof (rolling_mean_full k close i w ltac:(lia) Hi Hki Hw) as Hm.
  pose proof (rolling_std_full k close i w Hk Hi Hki Hw) as Hs.
  rewrite (spec_mean_flat w c) in Hm by done.
  rewrite (spec_sample_std_flat w c) in Hs by done.
  split; [done|]. unfold series_add, series_sub, scalar_mul.
  rewrite !lookup_zip_with, !list_lookup_fmap, Hm, Hs. simpl.
  split; do 2 f_equal; lra.
Qed.

Lemma bollinger_flat_window_witness :
  ∃ data' middle upper lower,
    add_bollinger 14 2 (bars days14 flat14) = Ok data' ∧
    getitem data' "BB_Middle" = Ok middle ∧
    getitem data' "BB_Upper" = Ok upper ∧
    getitem data' "BB_Lower" = Ok lower ∧
    middle !! 13%nat = Some (Num 5) ∧ upper !! 13%nat = Some (Num 5) ∧
    lower !! 13%nat = Some (Num 5).
Proof.
  apply (bollinger_flat_window (bars days14 flat14) (Num <$> flat14) 14 13 2 5
           flat14); try (simpl; lia); try reflexivity.
  repeat constructor.
Defined.

(** ** The RSI in closed form *)

Lemma Rsum_nonneg (w : list R) : Forall (λ y, 0 <= y) w → 0 <= Rsum w.
Proof. induction 1 as [|x w Hx _ IH]; simpl; lra. Qed.

Lemma spec_mean_nonneg (w : list R) :
  w ≠ [] → Forall (λ y, 0 <= y) w → 0 <= spec_mean w.
Proof.
  intros Hne Hw. unfold spec_mean, Rdiv. apply Rmult_le_pos.
  - by apply Rsum_nonneg.
  - left. apply Rinv_0_lt_compat, lt_0_INR. destruct w; [done|simpl; lia].
Qed.

Lemma raw_losses_nonneg cs : Forall (λ y, 0 <= y) (raw_losses cs).
Proof.
  destruct cs as [|c cs]; [constructor|]. unfold raw_losses.
  constructor; [lra|]. apply Forall_fmap, Forall_forall. intros d _. simpl.
  apply Rmax_r.
Qed.

Lemma spec_window_nonempty {A} (l : list A) k i :
  (0 < k)%nat → (k ≤ i + 1)%nat → (i < length l)%nat → spec_window l k i ≠ [].
Proof.
  intros Hk Hki Hi Hnil. pose proof (length_spec_window k l i Hki Hi) as Hlen.
  rewrite Hnil in Hlen. simpl in Hlen. lia.
Qed.

(** One cell from two non-negative averages that are not both zero. *)
Lemma rsi_cell_closed_form g l :
  0 <= g → 0 <= l → g + l ≠ 0 →
  fsub (Num 100) (fdiv (Num 100) (fadd (Num 1) (fdiv (Num g) (Num l))))
  = Num (100 * g / (g + l)).
Proof.
  intros Hg Hl Hgl. destruct (decide (l = 0)) as [->|Hl0].
  - destruct (rsi_cell_zero_loss g) as [_ ->]; [lra|]. f_equal. field. lra.
  - unfold fdiv at 2. rewrite decide_False by done. cbn [fadd].
    assert (0 <= g / l) as Hq.
    { unfold Rdiv. apply Rmult_le_pos; [done|].
      left. apply Rinv_0_lt_compat. lra. }
    unfold fdiv. rewrite decide_False by lra. cbn [fsub fopp fadd].
    f_equal. field. lra.
Qed.

Lemma closed_form_range g l :
  0 <= g → 0 <= l → g + l ≠ 0 → 0 <= 100 * g / (g + l) <= 100.
Proof.
  intros Hg Hl Hgl. assert (0 < g + l) as Hpos by lra.
  pose proof (Rinv_0_lt_compat _ Hpos) as Hr.
  assert (/ (g + l) * (g + l) = 1) as Hinv by (apply Rinv_l; lra).
  unfold Rdiv. split.
  - apply Rmult_le_pos; lra.
  - replace 100 with (100 * (g + l) * / (g + l)) at 2 by (field; lra).
    apply Rmult_le_compat_r; lra.
Qed.

Lemma rsi_averages_finite k (cs : list R) i :
  (0 < k)%nat → (k - 1 ≤ i)%nat → (i < length cs)%nat →
  ∃ g l,
    rsi_gain k (Num <$> cs) !! i = Some (Num g) ∧
    rsi_loss k (Num <$> cs) !! i = Some (Num l) ∧ 0 <= g ∧ 0 <= l.
Proof.
  intros Hk Hki Hi. eexists _, _.
  split; [by apply rsi_gain_finite|]. split; [by apply rsi_loss_finite|].
  split; apply spec_mean_nonneg.
  - apply spec_window_nonempty; rewrite ?length_raw_gains; lia.
  - unfold spec_window. apply Forall_take, Forall_drop, raw_gains_nonneg.
  - apply spec_window_nonempty; rewrite ?length_raw_losses; lia.
  - unfold spec_window. apply Forall_take, Forall_drop, raw_losses_nonneg.
Qed.

(** X13: on a finite close column and past the warm-up, the two averages
    [g] and [l] are non-negative numbers and the RSI cell is
    [100 * g / (g + l)], a number between 0 and 100; it is NaN exactly when
    both averages are 0 (a flat window). *)
Theorem rsi_closed_form (data : DataFrame) (cs : list R) (k i : nat) :
  (0 < k)%nat → (k - 1 ≤ i)%nat → (i < length cs)%nat →
  getitem data "Close" = Ok (Num <$> cs) →
  ∃ data' r g l,
    add_rsi k data = Ok data' ∧ getitem data' "RSI" = Ok r ∧
    rsi_gain k (Num <$> cs) !! i = Some (Num g) ∧
    rsi_loss k (Num <$> cs) !! i = Some (Num l) ∧
    0 <= g ∧ 0 <= l ∧
    (g + l = 0 → r !! i = Some NaN) ∧
    (g + l ≠ 0 →
     r !! i = Some (Num (100 * g / (g + l))) ∧ 0 <= 100 * g / (g + l) <= 100).
Proof.
  intros Hk Hki Hi Hclose. unfold add_rsi. frame_run.
  destruct (rsi_averages_finite k cs i Hk Hki Hi) as (g & l & Hg & Hl & Hg0 & Hl0).
  eexists _, _, g, l. split; [done|]. split; [by frame_run|].
  repeat (split; [done|]).
  rewrite rsi_lookup, Hg, Hl. cbn [mbind option_bind]. split.
  - intros Hz. assert (g = 0) as -> by lra. assert (l = 0) as -> by lra.
    by destruct rsi_cell_zero_zero as [_ ->].
  - intros Hz. rewrite rsi_cell_closed_form by done.
    split; [done|]. by apply closed_form_range.
Qed.

Lemma rsi_closed_form_witness :
  ∃ data' r g l,
    add_rsi 2 bars3 = Ok data' ∧ getitem data' "RSI" = Ok r ∧
    rsi_gain 2 (Num <$> [10; 11; 12]) !! 1%nat = Some (Num g) ∧
    rsi_loss 2 (Num <$> [10; 11; 12]) !! 1%nat = Some (Num l) ∧
    0 <= g ∧ 0 <= l ∧
    (g + l = 0 → r !! 1%nat = Some NaN) ∧
    (g + l ≠ 0 →
     r !! 1%nat = Some (Num (100 * g / (g + l))) ∧ 0 <= 100 * g / (g + l) <= 100).
Proof.
  apply (rsi_closed_form bars3 [10; 11; 12] 2 1); try (simpl; lia). reflexivity.
Defined.

(** X14: on a finite close column every cell of the RSI is NaN or a number
    between 0 and 100. *)
Theorem rsi_range (data : DataFrame) (cs : list R) (k : nat) :
  (0 < k)%nat →
  getitem data "Close" = Ok (Num <$> cs) →
  ∃ data' r,
    add_rsi k data = Ok data' ∧ getitem data' "RSI" = Ok r ∧
    ∀ i v, r !! i = Some v → v = NaN ∨ ∃ x, v = Num x ∧ 0 <= x <= 100.
Proof.
  intros Hk Hclose. unfold add_rsi. frame_run.
  eexists _, _. split; [done|]. split; [by frame_run|].
  intros i v Hv.
  assert (i < length cs)%nat as Hi.
  { apply lookup_lt_Some in Hv. by rewrite length_rsi, length_fmap in Hv. }
  rewrite rsi_lookup in Hv.
  destruct (decide (i < k - 1)%nat) as [Hwarm|Hfull].
  { rewrite rsi_gain_warmup, rsi_loss_warmup in Hv by (by rewrite ?length_fmap).
    simpl in Hv. left. congruence. }
  destruct (rsi_averages_finite k cs i Hk ltac:(lia) Hi)
    as (g & l & Hg & Hl & Hg0 & Hl0).
  rewrite Hg, Hl in Hv. cbn [mbind option_bind] in Hv.
  destruct (decide (g + l = 0)) as [Hz|Hz].
  - left. assert (g = 0) as -> by lra. assert (l = 0) as -> by lra.
    destruct rsi_cell_zero_zero as [_ Hcell]. rewrite Hcell in Hv. congruence.
  - right. rewrite rsi_cell_closed_form in Hv by done.
    injection Hv as <-. eexists. split; [done|].
    by apply closed_form_range.
Qed.

Lemma rsi_range_witness :
  ∃ data' r,
    add_rsi 14 (bars days14 rising14) = Ok data' ∧ getitem data' "RSI" = Ok r ∧
    ∀ i v, r !! i = Some v → v = NaN ∨ ∃ x, v = Num x ∧ 0 <= x <= 100.
Proof.
  apply (rsi_range (bars days14 rising14) rising14 14); [lia|reflexivity].
Defined.

(** ** The RSI on monotone closes *)

(** X15: on a strictly increasing close column the RSI is 100 wherever it
    is defined, and it is defined from position 1 on once the warm-up is
    over. *)
Theorem rsi_on_rising_closes (data : DataFrame) (cs : list R) (k : nat) :
  strictly_increasing cs →
  (0 < k)%nat →
  getitem data "Close" = Ok (Num <$> cs) →
  ∃ data' r,
    add_rsi k data = Ok data' ∧ getitem data' "RSI" = Ok r ∧
    (∀ i v, r !! i = Some v → v ≠ NaN → v = Num 100) ∧
    (∀ i, (k - 1 ≤ i)%nat → (1 ≤ i)%nat → (i < length cs)%nat →
       r !! i = Some (Num 100)).
Proof.
  intros Hinc Hk Hclose. unfold add_rsi. frame_run.
  eexists _, _. split; [done|]. split; [by frame_run|]. split.
  - intros i v. by apply rsi_rising.
  - intros i Hki Hi Hlen. by apply rsi_rising_100.
Qed.

Lemma rising14_increasing : strictly_increasing rising14.
Proof.
  intros i a b Ha Hb. unfold rising14 in *.
  repeat (destruct i as [|i]; [injection Ha as <-; injection Hb as <-; lra|]).
  done.
Qed.

Lemma rsi_on_rising_closes_witness :
  ∃ data' r,
    add_rsi 14 (bars days14 rising14) = Ok data' ∧ getitem data' "RSI" = Ok r ∧
    (∀ i v, r !! i = Some v → v ≠ NaN → v = Num 100) ∧
    (∀ i, (14 - 1 ≤ i)%nat → (1 ≤ i)%nat → (i < length rising14)%nat →
       r !! i = Some (Num 100)).
Proof.
  apply (rsi_on_rising_closes (bars days14 rising14) rising14 14);
    [apply rising14_increasing|lia|reflexivity].
Defined.

Lemma raw_gains_falling cs :
  strictly_decreasing cs → Forall (λ x, x = 0) (raw_gains cs).
Proof.
  intros Hdec. destruct cs as [|c cs]; [constructor|].
  unfold raw_gains. constructor; [done|].
  apply Forall_fmap, Forall_lookup. intros j d Hd. simpl.
  unfold spec_delta in Hd. apply lookup_zip_with_Some in Hd as (b & a & -> & Hb & Ha).
  simpl in Hb. specialize (Hdec j a b Ha Hb).
  rewrite Rmax_right by lra. done.
Qed.

Lemma rsi_gain_falling k cs i :
  strictly_decreasing cs → (0 < k)%nat → (i < length cs)%nat → (k - 1 ≤ i)%nat →
  rsi_gain k (Num <$> cs) !! i = Some (Num 0).
Proof.
  intros Hdec Hk Hi Hki. rewrite rsi_gain_finite by done. do 2 f_equal.
  unfold spec_mean. rewrite Rsum_zeros; [unfold Rdiv; lra|].
  unfold spec_window. by apply Forall_take, Forall_drop, raw_gains_falling.
Qed.

Lemma raw_losses_falling cs i :
  strictly_decreasing cs → (1 ≤ i)%nat → (i < length cs)%nat →
  ∃ x, raw_losses cs !! i = Some x ∧ 0 < x.
Proof.
  intros Hdec Hi Hlen. destruct i as [|j]; [lia|].
  destruct cs as [|c cs]; [simpl in Hlen; lia|].
  destruct (lookup_lt_is_Some_2 (c :: cs) j) as [a Ha]; [lia|].
  destruct (lookup_lt_is_Some_2 (c :: cs) (S j)) as [b Hb]; [lia|].
  exists (- (b - a)). pose proof (Hdec j a b Ha Hb).
  unfold raw_losses, spec_delta.
  change ((0 :: ((λ d, Rmax (- d) 0) <$> zip_with Rminus (tail (c :: cs)) (c :: cs))) !! S j)
    with (((λ d, Rmax (- d) 0) <$> zip_with Rminus cs (c :: cs)) !! j).
  rewrite list_lookup_fmap, lookup_zip_with. simpl in Hb.
  rewrite Hb, Ha. simpl. rewrite Rmax_left by lra. split; [done|lra].
Qed.

Lemma rsi_loss_falling_pos k cs i :
  strictly_decreasing cs → (0 < k)%nat →
  (k - 1 ≤ i)%nat → (1 ≤ i)%nat → (i < length cs)%nat →
  0 < spec_mean (spec_window (raw_losses cs) k i).
Proof.
  intros Hdec Hk Hki Hi Hlen.
  destruct (raw_losses_falling cs i Hdec Hi Hlen) as (x & Hx & Hpos).
  assert (0 < Rsum (spec_window (raw_losses cs) k i)) as Hsum.
  { apply (Rsum_pos _ (k - 1) x); [| |done].
    - unfold spec_window. apply Forall_take, Forall_drop, raw_losses_nonneg.
    - rewrite spec_window_last by lia. done. }
  unfold spec_mean. rewrite length_spec_window
    by (rewrite ?length_raw_losses; lia).
  assert (0 < INR k) by (apply lt_0_INR; lia).
  by apply Rdiv_lt_0_compat.
Qed.

(** X16: on a strictly decreasing close column the RSI is 0 wherever it is
    defined, and it is defined from position 1 on once the warm-up is
    over. *)
Theorem rsi_on_falling_closes (data : DataFrame) (cs : list R) (k : nat) :
  strictly_decreasing cs →
  (0 < k)%nat →
  getitem data "Close" = Ok (Num <$> cs) →
  ∃ data' r,
    add_rsi k data = Ok data' ∧ getitem data' "RSI" = Ok r ∧
    (∀ i v, r !! i = Some v → v ≠ NaN → v = Num 0) ∧
    (∀ i, (k - 1 ≤ i)%nat → (1 ≤ i)%nat → (i < length cs)%nat →
       r !! i = Some (Num 0)).
Proof.
  intros Hdec Hk Hclose. unfold add_rsi. frame_run.
  eexists _, _. split; [done|]. split; [by frame_run|].
  assert (∀ l, 0 <= l → l ≠ 0 →
            fsub (Num 100) (fdiv (Num 100) (fadd (Num 1) (fdiv (Num 0) (Num l))))
            = Num 0) as Hcell.
  { intros l Hl Hl0. rewrite rsi_cell_closed_form by lra.
    f_equal. unfold Rdiv. lra. }
  split.
  - intros i v Hv Hdef.
    assert (i < length cs)%nat as Hi.
    { apply lookup_lt_Some in Hv. by rewrite length_rsi, length_fmap in Hv. }
    rewrite rsi_lookup in Hv.
    destruct (decide (i < k - 1)%nat) as [Hwarm|Hfull].
    { rewrite rsi_gain_warmup, rsi_loss_warmup in Hv by (by rewrite ?length_fmap).
      simpl in Hv. congruence. }
    destruct (rsi_averages_finite k cs i Hk ltac:(lia) Hi)
      as (g & l & _ & Hl & _ & Hl0).
    rewrite rsi_gain_falling, Hl in Hv by (done || lia).
    cbn [mbind option_bind] in Hv.
    destruct (decide (l = 0)) as [->|Hne].
    + destruct rsi_cell_zero_zero as [_ Hnan]. rewrite Hnan in Hv. congruence.
    + rewrite Hcell in Hv by done. congruence.
  - intros i Hki Hi Hlen.
    rewrite rsi_lookup, rsi_gain_falling, rsi_loss_finite by (done || lia).
    cbn [mbind option_bind]. f_equal.
    pose proof (rsi_loss_falling_pos k cs i Hdec Hk Hki Hi Hlen).
    apply Hcell; lra.
Qed.

Lemma falling3_decreasing : strictly_decreasing [12; 11; 10].
Proof.
  intros i a b Ha Hb.
  repeat (destruct i as [|i]; [injection Ha as <-; injection Hb as <-; lra|]).
  done.
Qed.

Lemma rsi_on_falling_closes_witness :
  ∃ data' r,
    add_rsi 2 (bars [1; 2; 3]%Z [12; 11; 10]) = Ok data' ∧
    getitem data' "RSI" = Ok r ∧
    (∀ i v, r !! i = Some v → v ≠ NaN → v = Num 0) ∧
    (∀ i, (2 - 1 ≤ i)%nat → (1 ≤ i)%nat → (i < length [12; 11; 10])%nat →
       r !! i = Some (Num 0)).
Proof.
  apply (rsi_on_falling_closes (bars [1; 2; 3]%Z [12; 11; 10]) [12; 11; 10] 2);
    [apply falling3_decreasing|lia|reflexivity].
Defined.

(** ** Gaps in the close column *)

Lemma ewm_step_gap alpha st :
  (ewm_step alpha st None).1 = st.1.
Proof. unfold ewm_step. by destruct st as [[w|] old]. Qed.

Lemma ewm_from_gap alpha st vals i v :
  ewm_from alpha st vals !! i = Some v →
  vals !! S i = Some None →
  ewm_from alpha st vals !! S i = Some v.
Proof.
  revert st i. induction vals as [|c vals IH]; intros st i Hv Hgap; [done|].
  destruct i as [|i].
  - destruct vals as [|c' vals]; [done|]. simpl in Hgap. injection Hgap as ->.
    cbn [ewm_from lookup list_lookup] in *. injection Hv as <-.
    by rewrite ewm_step_gap.
  - cbn [ewm_from lookup list_lookup] in *. by apply IH.
Qed.

(** X17: a missing close (NaN or infinite) does not interrupt the EMA: the
    cell at that position repeats the cell before it. *)
Theorem ema_carries_over_gaps (data : DataFrame) (name : string) (span : R)
    (close : Series) :
  1 <= span →
  getitem data "Close" = Ok close →
  ∃ data' ema,
    add_ema name span data = Ok data' ∧ getitem data' name = Ok ema ∧
    ∀ i v x, ema !! i = Some v → close !! S i = Some x →
      observation x = None → ema !! S i = Some v.
Proof.
  intros Hspan Hclose. unfold add_ema. frame_run.
  rewrite ewm_mean_Ok by done. frame_run.
  eexists _, _. split; [done|]. split; [by frame_run|].
  intros i v x Hv Hx Hobs.
  assert (prep_values close !! S i = Some None) as Hgap.
  { unfold prep_values. by rewrite list_lookup_fmap, Hx, <- Hobs. }
  destruct (prep_values close) as [|v0 vals]; [done|].
  destruct i as [|i].
  - simpl in Hgap. destruct vals as [|c vals]; [done|]. injection Hgap as ->.
    cbn [ewm_from lookup list_lookup] in *. injection Hv as <-.
    by rewrite ewm_step_gap.
  - cbn [lookup list_lookup] in *. by apply ewm_from_gap.
Qed.

Lemma ema_carries_over_gaps_witness :
  ∃ data' ema,
    add_ema "EMA_20" 20 malformed = Ok data' ∧ getitem data' "EMA_20" = Ok ema ∧
    ∀ i v x, ema !! i = Some v →
      [Num 10; NaN; Num 12; Num 13; Num 14] !! S i = Some x →
      observation x = None → ema !! S i = Some v.
Proof.
  apply (ema_carries_over_gaps malformed "EMA_20" 20
           [Num 10; NaN; Num 12; Num 13; Num 14]); [lra|reflexivity].
Defined.

(** ** The bands and the moving average *)

(** X18: when both are selected, the middle Bollinger band is the same
    column as the 20-bar moving average. *)
Theorem middle_band_is_sma20 (indicators : list string) (data data' : DataFrame)
    (close : Series) :
  getitem data "Close" = Ok close →
  "SMA 20" ∈ indicators → "Bollinger Bands" ∈ indicators →
  calculations indicators data = Ok data' →
  columns data' !! "BB_Middle" = Some (rolling_mean 20 close) ∧
  columns data' !! "SMA_20" = Some (rolling_mean 20 close).
Proof.
  intros Hclose Hsma Hbb Hrun.
  destruct (calculations_columns indicators data close Hclose)
    as (d & Hrun' & _ & Hcols).
  assert (d = data') as -> by congruence.
  rewrite !Hcols. unfold expected_column, indicator_formula. string_eqs.
  by rewrite !bool_decide_eq_true_2 by done.
Qed.

Lemma middle_band_is_sma20_witness :
  ∃ data',
    calculations ["SMA 20"; "Bollinger Bands"] bars3 = Ok data' ∧
    columns data' !! "BB_Middle" = Some (rolling_mean 20 [Num 10; Num 11; Num 12]) ∧
    columns data' !! "SMA_20" = Some (rolling_mean 20 [Num 10; Num 11; Num 12]).
Proof.
  destruct (calculations_columns ["SMA 20"; "Bollinger Bands"] bars3
              [Num 10; Num 11; Num 12]) as (data' & Hrun & _); [reflexivity|].
  exists data'. split; [exact Hrun|].
  apply (middle_band_is_sma20 ["SMA 20"; "Bollinger Bands"] bars3 data'
           [Num 10; Num 11; Num 12]); [reflexivity|in_list|in_list|exact Hrun].
Defined.


